(** * The interaction layer of the storefront (js/main.js)

    A shallow embedding of the script that drives the storefront page:
    mobile navigation, smooth scrolling, header visibility, product cards,
    the newsletter form, the two intersection observers, the Escape handler
    and the focus trap.

    The script is one immediately invoked function that queries the page,
    installs listeners and returns; everything else happens later, inside
    listeners, timer callbacks, animation-frame callbacks and observer
    callbacks.  The embedding follows that shape:

    - the page is a store of elements indexed by node identity ([world]);
    - the result of every selector query the script makes is given by a
      [document] record (the structure of the page), the capabilities of the
      runtime by an [env] record;
    - code runs in a state-and-exception monad [M] in which the state
      survives a throw, as the effects of a JavaScript function survive the
      exception that ends it;
    - closures are first-order data ([listener], [callback], [anim]) that
      carry the variables they captured, and are run by [run_listener],
      [run_callback] and [animation].

    Numbers that the script computes with (scroll offsets, time stamps) are
    exact rationals; counters and delays are naturals.  [console] output is
    not modelled.  The world also keeps a ghost list of the writes that the
    observer callbacks perform, so that they can be counted. *)

From Stdlib Require Import QArith Qabs Lqa Ascii DecimalString.
From stdpp Require Import gmap strings list.

Open Scope string_scope.

(** ** Values *)

Definition node := nat.

(** [x < y] on numbers, as a boolean. *)
Definition Qltb (x y : Q) : bool := negb (Qle_bool y x).

(** [String(b)] for a boolean [b]. *)
Definition string_of_bool (b : bool) : string := if b then "true" else "false".

(** [String(n)] for a non-negative integer [n]. *)
Definition string_of_nat (n : nat) : string := NilZero.string_of_uint (Nat.to_uint n).

(** Truthiness of a string: only the empty string is falsy. *)
Definition truthy (s : string) : bool := negb (String.eqb s EmptyString).

(** ** Elements

    What the script reads and writes on an element: attributes other than
    [class], the class list, inline style properties, the text content and
    (for inputs) the value. *)

Record element := mkElement {
  attributes : gmap string string;
  classList : list string;
  style : gmap string string;
  textContent : string;
  value : string
}.

Definition emptyElement : element := mkElement ∅ [] ∅ EmptyString EmptyString.

Definition set_attributes (f : gmap string string -> gmap string string) (e : element) : element :=
  mkElement (f (attributes e)) (classList e) (style e) (textContent e) (value e).
Definition set_classList (f : list string -> list string) (e : element) : element :=
  mkElement (attributes e) (f (classList e)) (style e) (textContent e) (value e).
Definition set_style (f : gmap string string -> gmap string string) (e : element) : element :=
  mkElement (attributes e) (classList e) (f (style e)) (textContent e) (value e).
Definition set_textContent (s : string) (e : element) : element :=
  mkElement (attributes e) (classList e) (style e) s (value e).
Definition set_value (s : string) (e : element) : element :=
  mkElement (attributes e) (classList e) (style e) (textContent e) s.

(** [DOMTokenList]: an ordered set of class names. *)
Definition cl_contains (c : string) (l : list string) : bool := bool_decide (c ∈ l).
Definition cl_add (c : string) (l : list string) : list string :=
  if cl_contains c l then l else l ++ [c].
Definition cl_remove (c : string) (l : list string) : list string :=
  filter (λ x, x ≠ c) l.
Definition cl_toggle (c : string) (l : list string) : list string :=
  if cl_contains c l then cl_remove c l else cl_add c l.

(** Assigning the empty string to a style property removes it; a property
    that is not set reads as the empty string. *)
Definition style_assign (p v : string) (s : gmap string string) : gmap string string :=
  if truthy v then <[p := v]> s else delete p s.
Definition style_read (p : string) (s : gmap string string) : string :=
  default EmptyString (s !! p).

(** ** Exceptions, closures and the world *)

Inductive exn := TypeError | ReferenceError | NotFoundError | SyntaxError.

Inductive outcome (A : Type) :=
| Ok (a : A)
| Throw (e : exn).
Arguments Ok {A} a.
Arguments Throw {A} e.

(** Where a listener is registered. *)
Inductive evtarget := OnNode (n : node) | OnDocument | OnWindow.

#[global] Instance evtarget_eq_dec : EqDecision evtarget.
Proof. solve_decision. Defined.

(** The closure [animation] of one call of [smoothScrollTo], with the
    variables it captures; [an_start] is the mutable [start]. *)
Record anim := mkAnim {
  an_startPosition : Q;
  an_distance : Q;
  an_start : option Q
}.

(** The functions handed to [setTimeout]. *)
Inductive callback :=
| CbResetButton (btn : node) (originalText : string)   (* lines 186-189 and 258-261 *)
| CbRemoveAnnouncement (announcement : nat)            (* lines 325-327 *)
| CbLater (header : option node)                       (* lines 22-25, [func] of line 140 *)
| CbPerformance.                                       (* lines 363-373 *)

Record timer := mkTimer {
  tm_id : nat;
  tm_due : nat;
  tm_callback : callback
}.

(** The functions handed to [addEventListener], with what they capture. *)
Inductive listener :=
| LToggleClick (navToggle navMenu : node)                   (* line 72 *)
| LNavLinkClick (navToggle navMenu : node)                  (* line 83 *)
| LOutsideClick (navToggle navMenu : node)                  (* line 93 *)
| LAnchorClick (anchor : node)                              (* line 109 *)
| LHandleScroll (header : option node)                      (* line 154 *)
| LAddToCart (btn : node) (productName : string)            (* line 171 *)
| LQuickView (productName : string)                         (* line 197 *)
| LCardKeydown (quickViewBtn : option node) (productName : string) (* line 208 *)
| LNewsletterSubmit                                         (* line 235 *)
| LLoad                                                     (* line 361 *)
| LEscape (navToggle navMenu : option node)                 (* line 384 *)
| LFocusTrap (navMenu : node) (firstFocusable lastFocusable : option node). (* line 409 *)

(** Writes that the properties below count. *)
Inductive effect :=
| EReveal (n : node)     (* lines 293-294 ran for [n] *)
| ELoaded (n : node).    (* line 343 ran for [n] *)

#[global] Instance effect_eq_dec : EqDecision effect.
Proof. solve_decision. Defined.

Record world := mkWorld {
  (* the page *)
  elems : gmap node element;
  body_children : list (nat * element);
  next_child : nat;
  activeElement : option node;
  pageYOffset : Q;
  history : list string;
  (* the event loop *)
  now : nat;
  timers : list timer;
  next_timer : nat;
  raf_queue : list anim;
  listeners : list (evtarget * string * listener);
  defaultPrevented : bool;
  propagationStopped : bool;
  uncaught : list exn;
  (* the variables of the script *)
  lastScrollY : Q;
  timeout : option nat;
  cartCount : option nat;
  observer : option (list node);
  lazyBackgroundObserver : option (list node);
  (* ghost: the writes performed by the observer callbacks *)
  effects : list effect
}.

(** Field updates. *)

Definition set_elems (x : gmap node element) (w : world) : world :=
  mkWorld x (body_children w) (next_child w) (activeElement w) (pageYOffset w)
    (history w) (now w) (timers w) (next_timer w) (raf_queue w) (listeners w)
    (defaultPrevented w) (propagationStopped w) (uncaught w) (lastScrollY w) (timeout w)
    (cartCount w) (observer w) (lazyBackgroundObserver w) (effects w).
Definition set_body_children (x : list (nat * element)) (w : world) : world :=
  mkWorld (elems w) x (next_child w) (activeElement w) (pageYOffset w) (history w)
    (now w) (timers w) (next_timer w) (raf_queue w) (listeners w) (defaultPrevented w)
    (propagationStopped w) (uncaught w) (lastScrollY w) (timeout w) (cartCount w)
    (observer w) (lazyBackgroundObserver w) (effects w).
Definition set_next_child (x : nat) (w : world) : world :=
  mkWorld (elems w) (body_children w) x (activeElement w) (pageYOffset w) (history w)
    (now w) (timers w) (next_timer w) (raf_queue w) (listeners w) (defaultPrevented w)
    (propagationStopped w) (uncaught w) (lastScrollY w) (timeout w) (cartCount w)
    (observer w) (lazyBackgroundObserver w) (effects w).
Definition set_activeElement (x : option node) (w : world) : world :=
  mkWorld (elems w) (body_children w) (next_child w) x (pageYOffset w) (history w)
    (now w) (timers w) (next_timer w) (raf_queue w) (listeners w) (defaultPrevented w)
    (propagationStopped w) (uncaught w) (lastScrollY w) (timeout w) (cartCount w)
    (observer w) (lazyBackgroundObserver w) (effects w).
Definition set_pageYOffset (x : Q) (w : world) : world :=
  mkWorld (elems w) (body_children w) (next_child w) (activeElement w) x (history w)
    (now w) (timers w) (next_timer w) (raf_queue w) (listeners w) (defaultPrevented w)
    (propagationStopped w) (uncaught w) (lastScrollY w) (timeout w) (cartCount w)
    (observer w) (lazyBackgroundObserver w) (effects w).
Definition set_history (x : list string) (w : world) : world :=
  mkWorld (elems w) (body_children w) (next_child w) (activeElement w) (pageYOffset w) x
    (now w) (timers w) (next_timer w) (raf_queue w) (listeners w) (defaultPrevented w)
    (propagationStopped w) (uncaught w) (lastScrollY w) (timeout w) (cartCount w)
    (observer w) (lazyBackgroundObserver w) (effects w).
Definition set_now (x : nat) (w : world) : world :=
  mkWorld (elems w) (body_children w) (next_child w) (activeElement w) (pageYOffset w)
    (history w) x (timers w) (next_timer w) (raf_queue w) (listeners w)
    (defaultPrevented w) (propagationStopped w) (uncaught w) (lastScrollY w) (timeout w)
    (cartCount w) (observer w) (lazyBackgroundObserver w) (effects w).
Definition set_timers (x : list timer) (w : world) : world :=
  mkWorld (elems w) (body_children w) (next_child w) (activeElement w) (pageYOffset w)
    (history w) (now w) x (next_timer w) (raf_queue w) (listeners w)
    (defaultPrevented w) (propagationStopped w) (uncaught w) (lastScrollY w) (timeout w)
    (cartCount w) (observer w) (lazyBackgroundObserver w) (effects w).
Definition set_next_timer (x : nat) (w : world) : world :=
  mkWorld (elems w) (body_children w) (next_child w) (activeElement w) (pageYOffset w)
    (history w) (now w) (timers w) x (raf_queue w) (listeners w) (defaultPrevented w)
    (propagationStopped w) (uncaught w) (lastScrollY w) (timeout w) (cartCount w)
    (observer w) (lazyBackgroundObserver w) (effects w).
Definition set_raf_queue (x : list anim) (w : world) : world :=
  mkWorld (elems w) (body_children w) (next_child w) (activeElement w) (pageYOffset w)
    (history w) (now w) (timers w) (next_timer w) x (listeners w) (defaultPrevented w)
    (propagationStopped w) (uncaught w) (lastScrollY w) (timeout w) (cartCount w)
    (observer w) (lazyBackgroundObserver w) (effects w).
Definition set_listeners (x : list (evtarget * string * listener)) (w : world) : world :=
  mkWorld (elems w) (body_children w) (next_child w) (activeElement w) (pageYOffset w)
    (history w) (now w) (timers w) (next_timer w) (raf_queue w) x (defaultPrevented w)
    (propagationStopped w) (uncaught w) (lastScrollY w) (timeout w) (cartCount w)
    (observer w) (lazyBackgroundObserver w) (effects w).
Definition set_defaultPrevented (x : bool) (w : world) : world :=
  mkWorld (elems w) (body_children w) (next_child w) (activeElement w) (pageYOffset w)
    (history w) (now w) (timers w) (next_timer w) (raf_queue w) (listeners w) x
    (propagationStopped w) (uncaught w) (lastScrollY w) (timeout w) (cartCount w)
    (observer w) (lazyBackgroundObserver w) (effects w).
Definition set_propagationStopped (x : bool) (w : world) : world :=
  mkWorld (elems w) (body_children w) (next_child w) (activeElement w) (pageYOffset w)
    (history w) (now w) (timers w) (next_timer w) (raf_queue w) (listeners w)
    (defaultPrevented w) x (uncaught w) (lastScrollY w) (timeout w) (cartCount w)
    (observer w) (lazyBackgroundObserver w) (effects w).
Definition set_uncaught (x : list exn) (w : world) : world :=
  mkWorld (elems w) (body_children w) (next_child w) (activeElement w) (pageYOffset w)
    (history w) (now w) (timers w) (next_timer w) (raf_queue w) (listeners w)
    (defaultPrevented w) (propagationStopped w) x (lastScrollY w) (timeout w)
    (cartCount w) (observer w) (lazyBackgroundObserver w) (effects w).
Definition set_lastScrollY (x : Q) (w : world) : world :=
  mkWorld (elems w) (body_children w) (next_child w) (activeElement w) (pageYOffset w)
    (history w) (now w) (timers w) (next_timer w) (raf_queue w) (listeners w)
    (defaultPrevented w) (propagationStopped w) (uncaught w) x (timeout w) (cartCount w)
    (observer w) (lazyBackgroundObserver w) (effects w).
Definition set_timeout (x : option nat) (w : world) : world :=
  mkWorld (elems w) (body_children w) (next_child w) (activeElement w) (pageYOffset w)
    (history w) (now w) (timers w) (next_timer w) (raf_queue w) (listeners w)
    (defaultPrevented w) (propagationStopped w) (uncaught w) (lastScrollY w) x
    (cartCount w) (observer w) (lazyBackgroundObserver w) (effects w).
Definition set_cartCount (x : option nat) (w : world) : world :=
  mkWorld (elems w) (body_children w) (next_child w) (activeElement w) (pageYOffset w)
    (history w) (now w) (timers w) (next_timer w) (raf_queue w) (listeners w)
    (defaultPrevented w) (propagationStopped w) (uncaught w) (lastScrollY w) (timeout w)
    x (observer w) (lazyBackgroundObserver w) (effects w).
Definition set_observer (x : option (list node)) (w : world) : world :=
  mkWorld (elems w) (body_children w) (next_child w) (activeElement w) (pageYOffset w)
    (history w) (now w) (timers w) (next_timer w) (raf_queue w) (listeners w)
    (defaultPrevented w) (propagationStopped w) (uncaught w) (lastScrollY w) (timeout w)
    (cartCount w) x (lazyBackgroundObserver w) (effects w).
Definition set_lazyBackgroundObserver (x : option (list node)) (w : world) : world :=
  mkWorld (elems w) (body_children w) (next_child w) (activeElement w) (pageYOffset w)
    (history w) (now w) (timers w) (next_timer w) (raf_queue w) (listeners w)
    (defaultPrevented w) (propagationStopped w) (uncaught w) (lastScrollY w) (timeout w)
    (cartCount w) (observer w) x (effects w).
Definition set_effects (x : list effect) (w : world) : world :=
  mkWorld (elems w) (body_children w) (next_child w) (activeElement w) (pageYOffset w)
    (history w) (now w) (timers w) (next_timer w) (raf_queue w) (listeners w)
    (defaultPrevented w) (propagationStopped w) (uncaught w) (lastScrollY w) (timeout w)
    (cartCount w) (observer w) (lazyBackgroundObserver w) x.

(** ** The monad

    A computation takes the world and returns an outcome together with the
    world it leaves behind, also when it throws. *)

Definition M (A : Type) : Type := world -> outcome A * world.

Definition ret {A} (a : A) : M A := fun w => (Ok a, w).
Definition throw {A} (e : exn) : M A := fun w => (Throw e, w).
Definition bind {A B} (m : M A) (k : A -> M B) : M B :=
  fun w => match m w with
           | (Ok a, w') => k a w'
           | (Throw e, w') => (Throw e, w')
           end.
Definition gets {A} (f : world -> A) : M A := fun w => (Ok (f w), w).
Definition modify (f : world -> world) : M unit := fun w => (Ok tt, f w).

Notation "'let*' x ':=' c1 'in' c2" := (bind c1 (fun x => c2))
  (at level 10, x name, c1 at level 100, c2 at level 200).

(** [l.forEach(f)] *)
Fixpoint forEach {A} (l : list A) (f : A -> M unit) : M unit :=
  match l with
  | [] => ret tt
  | x :: l => let* _ := f x in forEach l f
  end.

(** Using a value that may be [null] as an object: [null.p] throws. *)
Definition deref (o : option node) : M node :=
  match o with
  | Some n => ret n
  | None => throw TypeError
  end.

Definition liftOutcome {A} (o : outcome A) : M A := fun w => (o, w).

(** An exception that leaves a listener or callback is reported and the
    event loop goes on. *)
Definition report (m : M unit) : M unit :=
  fun w => match m w with
           | (Ok _, w') => (Ok tt, w')
           | (Throw e, w') => (Ok tt, set_uncaught (uncaught w' ++ [e]) w')
           end.

(** ** The DOM and runtime operations the script calls *)

(** [document.body] *)
Definition body : node := 0%nat.

Definition getEl (n : node) (w : world) : element := default emptyElement (elems w !! n).
Definition updEl (n : node) (f : element -> element) (w : world) : world :=
  set_elems (<[n := f (getEl n w)]> (elems w)) w.
Definition modEl (n : node) (f : element -> element) : M unit := modify (updEl n f).

Definition getAttribute (n : node) (name : string) : M (option string) :=
  gets (fun w => attributes (getEl n w) !! name).
Definition setAttribute (n : node) (name v : string) : M unit :=
  modEl n (set_attributes (<[name := v]>)).
Definition classList_contains (n : node) (c : string) : M bool :=
  gets (fun w => cl_contains c (classList (getEl n w))).
Definition classList_add (n : node) (c : string) : M unit := modEl n (set_classList (cl_add c)).
Definition classList_remove (n : node) (c : string) : M unit := modEl n (set_classList (cl_remove c)).
Definition classList_toggle (n : node) (c : string) : M unit := modEl n (set_classList (cl_toggle c)).
Definition setStyle (n : node) (p v : string) : M unit := modEl n (set_style (style_assign p v)).
Definition getTextContent (n : node) : M string := gets (fun w => textContent (getEl n w)).
Definition setTextContent (n : node) (s : string) : M unit := modEl n (set_textContent s).
Definition getValue (n : node) : M string := gets (fun w => value (getEl n w)).
Definition setValue (n : node) (s : string) : M unit := modEl n (set_value s).

(** [n.focus()]: the element becomes [document.activeElement]. *)
Definition focus (n : node) : M unit := modify (set_activeElement (Some n)).

(** [document.body.appendChild(e)] for an element [e] made by
    [document.createElement]: the new child gets an identity of its own, by
    which the script can remove it again. *)
Definition appendChild (e : element) : M nat :=
  fun w => (Ok (next_child w),
            set_next_child (S (next_child w))
              (set_body_children (body_children w ++ [(next_child w, e)]) w)).
Definition removeChild (id : nat) : M unit :=
  let* children := gets body_children in
  if bool_decide (id ∈ children.*1)
  then modify (set_body_children (filter (λ c, c.1 ≠ id) children))
  else throw NotFoundError.

(** [window.scrollTo(0, y)]; the clamping of [y] to the scrollable range of
    the page is left out. *)
Definition scrollTo (y : Q) : M unit := modify (set_pageYOffset y).
Definition pushState (url : string) : M unit :=
  modify (fun w => set_history (history w ++ [url]) w).

Definition preventDefault : M unit := modify (set_defaultPrevented true).
Definition stopPropagation : M unit := modify (set_propagationStopped true).

Definition setTimeout (cb : callback) (delay : nat) : M nat :=
  fun w => (Ok (next_timer w),
            set_next_timer (S (next_timer w))
              (set_timers (timers w ++ [mkTimer (next_timer w) (now w + delay) cb]) w)).
Definition clearTimeout (id : option nat) : M unit :=
  modify (fun w => set_timers (filter (λ t, Some (tm_id t) ≠ id) (timers w)) w).

Definition addEventListener (t : evtarget) (type : string) (l : listener) : M unit :=
  modify (fun w => set_listeners (listeners w ++ [(t, type, l)]) w).

(** The capabilities of the runtime that the script uses without or with
    feature detection. *)
Record env := mkEnv {
  has_requestAnimationFrame : bool;
  has_IntersectionObserver : bool;
  has_performance_timing : bool
}.

(** Calling a global function that is not defined is a [ReferenceError]. *)
Definition requestAnimationFrame (rt : env) (a : anim) : M unit :=
  if has_requestAnimationFrame rt
  then modify (fun w => set_raf_queue (raf_queue w ++ [a]) w)
  else throw ReferenceError.

(** ** The structure of the page

    What each selector query of the script returns.  [q_selector] is
    [document.querySelector] on the value of an [href]; it throws a
    [SyntaxError] on a string that is not a selector.  [offsetTop n] is the
    distance of the top of [n] from the top of the page, from which the
    layout gives [getBoundingClientRect]. *)

Record card := mkCard {
  c_addToCartBtn : option node;    (* card.querySelector('.add-to-cart') *)
  c_quickViewBtn : option node;    (* card.querySelector('.quick-view') *)
  c_productName : option node;     (* card.querySelector('.product-name') *)
  c_node : node
}.

Record document := mkDocument {
  q_navToggle : option node;          (* '.nav-toggle' *)
  q_navMenu : option node;            (* '.nav-menu' *)
  q_navLinks : list node;             (* '.nav-menu a' *)
  q_anchors : list node;              (* 'a[href^="#"]' *)
  q_header : option node;             (* '.header' *)
  q_productCards : list card;         (* '.product-card' *)
  q_cartLink : option node;           (* 'a[href="#cart"]' *)
  q_newsletterForm : option node;     (* '.newsletter-form' *)
  q_emailInput : option node;         (* form.querySelector('input[type="email"]') *)
  q_submitBtn : option node;          (* form.querySelector('button[type="submit"]') *)
  q_animatedElements : list node;     (* '.product-card, .featured-item, .about-content' *)
  q_lazyBackgrounds : list node;      (* '.product-image, .hero-image, .about-image' *)
  q_focusableElements : list node;    (* navMenu.querySelectorAll('a[href], button:not(...), ...') *)
  q_selector : string -> outcome (option node);
  offsetTop : node -> Q
}.

Definition getBoundingClientRect_top (d : document) (n : node) : M Q :=
  gets (fun w => offsetTop d n - pageYOffset w)%Q.

(** An event: the propagation path, target first, and for keyboard events
    the key and the state of Shift. *)
Record event := mkEvent {
  ev_path : list evtarget;
  ev_key : string;
  ev_shiftKey : bool
}.

(** [n.contains(event.target)]: [n] is the target or one of its ancestors. *)
Definition contains (n : node) (e : event) : bool := bool_decide (OnNode n ∈ ev_path e).

(** ** Utility functions (lines 19-58) *)

Definition duration : Q := 1000.

Definition ease (t b c d : Q) : Q :=
  let t := (t / (d / 2))%Q in
  if Qltb t 1 then (c / 2 * t * t + b)%Q
  else
    let t := (t - 1)%Q in
    (- c / 2 * (t * (t - 2) - 1) + b)%Q.

Definition animation (rt : env) (a : anim) (currentTime : Q) : M unit :=
  let start := match an_start a with None => currentTime | Some s => s end in
  let timeElapsed := (currentTime - start)%Q in
  let run := ease timeElapsed (an_startPosition a) (an_distance a) duration in
  let* _ := scrollTo run in
  if Qltb timeElapsed duration
  then requestAnimationFrame rt (mkAnim (an_startPosition a) (an_distance a) (Some start))
  else ret tt.

Definition smoothScrollTo (rt : env) (d : document) (target : node) : M unit :=
  let* top := getBoundingClientRect_top d target in
  let* y := gets pageYOffset in
  let targetPosition := (top + y)%Q in
  let* startPosition := gets pageYOffset in
  let distance := (targetPosition - startPosition - 60)%Q in
  requestAnimationFrame rt (mkAnim startPosition distance None).

(** ** Accessibility utility (lines 317-328) *)

Definition announceToScreenReader (message : string) : M unit :=
  let announcement := emptyElement in                      (* createElement('div') *)
  let announcement := set_attributes (<["role" := "status"]>) announcement in
  let announcement := set_attributes (<["aria-live" := "polite"]>) announcement in
  let announcement := set_classList (fun _ => ["visually-hidden"]) announcement in
  let announcement := set_textContent message announcement in
  let* id := appendChild announcement in
  let* _ := setTimeout (CbRemoveAnnouncement id) 1000 in
  ret tt.

(** ** Mobile navigation (lines 68-102) *)

Definition toggleClick (navToggle navMenu : node) : M unit :=
  let* a := getAttribute navToggle "aria-expanded" in
  let isExpanded := bool_decide (a = Some "true") in
  let* _ := setAttribute navToggle "aria-expanded" (string_of_bool (negb isExpanded)) in
  let* _ := classList_toggle navMenu "active" in
  let* active := classList_contains navMenu "active" in
  setStyle body "overflow" (if active then "hidden" else EmptyString).

Definition navLinkClick (navToggle navMenu : node) : M unit :=
  let* _ := classList_remove navMenu "active" in
  let* _ := setAttribute navToggle "aria-expanded" "false" in
  setStyle body "overflow" EmptyString.

Definition outsideClick (navToggle navMenu : node) (e : event) : M unit :=
  let* active := classList_contains navMenu "active" in
  if active && negb (contains navMenu e) && negb (contains navToggle e)
  then
    let* _ := classList_remove navMenu "active" in
    let* _ := setAttribute navToggle "aria-expanded" "false" in
    setStyle body "overflow" EmptyString
  else ret tt.

(** ** Smooth scrolling for anchor links (lines 109-127) *)

Definition anchorClick (rt : env) (d : document) (anchor : node) : M unit :=
  let* href := getAttribute anchor "href" in
  if bool_decide (href = Some "#") || bool_decide (href = Some "#cart") then ret tt
  else
    let* target := liftOutcome (q_selector d (default "null" href)) in
    match target with
    | Some target =>
        let* _ := preventDefault in
        let* _ := smoothScrollTo rt d target in
        let* _ := pushState (default "null" href) in
        let* _ := setAttribute target "tabindex" "-1" in
        focus target
    | None => ret tt
    end.

(** ** Header scroll behaviour (lines 134-154) *)

(** The function given to [debounce] on line 140. *)
Definition scrollFunc (header : option node) : M unit :=
  let* currentScrollY := gets pageYOffset in
  let* last := gets lastScrollY in
  let* _ :=
    if Qltb last currentScrollY && Qltb 100 currentScrollY
    then let* h := deref header in setStyle h "transform" "translateY(-100%)"
    else let* h := deref header in setStyle h "transform" "translateY(0)" in
  modify (set_lastScrollY currentScrollY).

(** [later] of [debounce], for [func = scrollFunc]. *)
Definition later (header : option node) : M unit :=
  let* t := gets timeout in
  let* _ := clearTimeout t in
  scrollFunc header.

(** [executedFunction] of [debounce], for [func = scrollFunc], [wait = 10]. *)
Definition handleScroll (header : option node) : M unit :=
  let* t := gets timeout in
  let* _ := clearTimeout t in
  let* id := setTimeout (CbLater header) 10 in
  modify (set_timeout (Some id)).

(** ** Product cards (lines 160-226) *)

Definition updateCartCount (d : document) : M unit :=
  let* c := gets cartCount in
  match c with
  | None => throw ReferenceError     (* [cartCount] read before line 219 ran *)
  | Some c =>
      let* _ := modify (set_cartCount (Some (S c))) in
      match q_cartLink d with
      | Some cartLink => setTextContent cartLink ("Cart (" ++ string_of_nat (S c) ++ ")")
      | None => ret tt
      end
  end.

Definition addToCartClick (d : document) (btn : node) (productName : string) : M unit :=
  let* _ := stopPropagation in
  let* originalText := getTextContent btn in
  let* _ := setTextContent btn "Added!" in
  let* _ := setStyle btn "backgroundColor" "#4CAF50" in
  let* _ := announceToScreenReader (productName ++ " added to cart") in
  let* _ := updateCartCount d in
  let* _ := setTimeout (CbResetButton btn originalText) 2000 in
  ret tt.

Definition quickViewClick (productName : string) : M unit :=
  let* _ := stopPropagation in
  announceToScreenReader ("Opening quick view for " ++ productName).

(** [quickViewBtn?.click()] dispatches a click, an event of its own, on the
    button; the listener that the script installs there is [quickViewClick]. *)
Definition cardKeydown (quickViewBtn : option node) (productName : string) (e : event) : M unit :=
  if bool_decide (ev_key e = "Enter") || bool_decide (ev_key e = " ")
  then
    let* _ := preventDefault in
    match quickViewBtn with
    | Some _ =>
        let* stopped := gets propagationStopped in
        let* _ := report (quickViewClick productName) in
        modify (set_propagationStopped stopped)
    | None => ret tt
    end
  else ret tt.

(** ** Newsletter form (lines 234-276) *)

(** Regular expressions over UTF-16 code units, matched with derivatives.
    A pattern anchored by [^] and [$] (without the [m] flag) tests whether
    the whole string is in the language. *)
Module Regex.

Definition code := N.

Inductive regex :=
| Empty
| Eps
| Class (p : code -> bool)
| Cat (r s : regex)
| Alt (r s : regex)
| Star (r : regex).

Definition Plus (r : regex) : regex := Cat r (Star r).

Fixpoint nullable (r : regex) : bool :=
  match r with
  | Empty => false
  | Eps => true
  | Class _ => false
  | Cat r s => nullable r && nullable s
  | Alt r s => nullable r || nullable s
  | Star _ => true
  end.

Fixpoint deriv (c : code) (r : regex) : regex :=
  match r with
  | Empty => Empty
  | Eps => Empty
  | Class p => if p c then Eps else Empty
  | Cat r s => if nullable r then Alt (Cat (deriv c r) s) (deriv c s) else Cat (deriv c r) s
  | Alt r s => Alt (deriv c r) (deriv c s)
  | Star r => Cat (deriv c r) (Star r)
  end.

Fixpoint matches (r : regex) (s : list code) : bool :=
  match s with
  | [] => nullable r
  | c :: s => matches (deriv c r) s
  end.

(** The code units of a string; every character of a [string] stands for
    the code unit of the same number. *)
Fixpoint codes (s : string) : list code :=
  match s with
  | EmptyString => []
  | String a s => N_of_ascii a :: codes s
  end.

(** [\s]: white space and line terminators. *)
Definition is_space (c : code) : bool :=
  ((9 <=? c) && (c <=? 13) || (c =? 32) || (c =? 160) || (c =? 5760)
   || (8192 <=? c) && (c <=? 8202) || (c =? 8232) || (c =? 8233)
   || (c =? 8239) || (c =? 8287) || (c =? 12288) || (c =? 65279))%N.

Definition lit (a : ascii) : regex := Class (N.eqb (N_of_ascii a)).

End Regex.

(** [[^\s@]] *)
Definition not_space_or_at (c : Regex.code) : bool :=
  negb (Regex.is_space c || (c =? 64)%N).

(** [/^[^\s@]+@[^\s@]+\.[^\s@]+$/] *)
Definition re : Regex.regex :=
  Regex.Cat (Regex.Plus (Regex.Class not_space_or_at))
    (Regex.Cat (Regex.lit "@")
       (Regex.Cat (Regex.Plus (Regex.Class not_space_or_at))
          (Regex.Cat (Regex.lit ".")
             (Regex.Plus (Regex.Class not_space_or_at))))).

Definition isValidEmail (email : string) : bool := Regex.matches re (Regex.codes email).

Definition newsletterSubmit (d : document) : M unit :=
  let* _ := preventDefault in
  let emailInput := q_emailInput d in
  let submitBtn := q_submitBtn d in
  let* i := deref emailInput in
  let* email := getValue i in
  if negb (truthy email) || negb (isValidEmail email)
  then
    let* _ := announceToScreenReader "Please enter a valid email address" in
    focus i
  else
    let* b := deref submitBtn in
    let* originalBtnText := getTextContent b in
    let* _ := setTextContent b "Subscribed!" in
    let* _ := setStyle b "backgroundColor" "#4CAF50" in
    let* _ := setValue i EmptyString in
    let* _ := announceToScreenReader "Successfully subscribed to newsletter" in
    let* _ := setTimeout (CbResetButton b originalBtnText) 3000 in
    ret tt.

(** ** Intersection observers (lines 285-307 and 337-352) *)

Inductive obs := Reveal | LazyBackground.

#[global] Instance obs_eq_dec : EqDecision obs.
Proof. solve_decision. Defined.

Definition get_obs (o : obs) (w : world) : option (list node) :=
  match o with
  | Reveal => observer w
  | LazyBackground => lazyBackgroundObserver w
  end.
Definition set_obs (o : obs) (x : option (list node)) (w : world) : world :=
  match o with
  | Reveal => set_observer x w
  | LazyBackground => set_lazyBackgroundObserver x w
  end.

(** [new IntersectionObserver(...)]: a [ReferenceError] where the
    constructor is not defined. *)
Definition new_IntersectionObserver (rt : env) (o : obs) : M unit :=
  if has_IntersectionObserver rt then modify (set_obs o (Some [])) else throw ReferenceError.

(** [observe] adds a target unless it is one already. *)
Definition observe (o : obs) (n : node) : M unit :=
  let* ts := gets (get_obs o) in
  match ts with
  | Some ts => if bool_decide (n ∈ ts) then ret tt else modify (set_obs o (Some (ts ++ [n])%list))
  | None => throw ReferenceError
  end.
Definition unobserve (o : obs) (n : node) : M unit :=
  let* ts := gets (get_obs o) in
  match ts with
  | Some ts => modify (set_obs o (Some (filter (λ x, x ≠ n) ts)))
  | None => throw ReferenceError
  end.

Definition record (x : effect) : M unit := modify (fun w => set_effects (effects w ++ [x]) w).

(** An entry: the target and [isIntersecting]. *)
Definition entry : Type := node * bool.

(** The callback of line 290. *)
Definition observerCallback (entries : list entry) : M unit :=
  forEach entries (fun entry =>
    if entry.2 then
      let* _ := setStyle entry.1 "opacity" "1" in
      let* _ := setStyle entry.1 "transform" "translateY(0)" in
      let* _ := record (EReveal entry.1) in
      unobserve Reveal entry.1
    else ret tt).

(** The callback of line 340. *)
Definition lazyBackgroundCallback (entries : list entry) : M unit :=
  forEach entries (fun entry =>
    if entry.2 then
      let* _ := classList_add entry.1 "loaded" in
      let* _ := record (ELoaded entry.1) in
      unobserve LazyBackground entry.1
    else ret tt).

(** ** Escape key handler (lines 384-393) *)

Definition escapeKeydown (navToggle navMenu : option node) (e : event) : M unit :=
  if bool_decide (ev_key e = "Escape")
  then
    match navMenu with
    | Some m =>
        let* active := classList_contains m "active" in
        if active
        then
          let* _ := classList_remove m "active" in
          let* t := deref navToggle in
          let* _ := setAttribute t "aria-expanded" "false" in
          let* _ := setStyle body "overflow" EmptyString in
          focus t
        else ret tt
    | None => ret tt
    end
  else ret tt.

(** ** Focus trap (lines 402-428) *)

(** [document.activeElement === x] for [x] an element or [undefined]:
    [activeElement] is an element or [null], and [null === undefined] is
    false. *)
Definition same_element (a x : option node) : bool :=
  match a, x with
  | Some a, Some x => bool_decide (a = x)
  | _, _ => false
  end.

Definition focusTrapKeydown (navMenu : node) (firstFocusable lastFocusable : option node)
    (e : event) : M unit :=
  let* active := classList_contains navMenu "active" in
  if negb active then ret tt
  else if bool_decide (ev_key e = "Tab")
  then
    let* a := gets activeElement in
    if ev_shiftKey e
    then
      if same_element a firstFocusable
      then let* _ := preventDefault in let* l := deref lastFocusable in focus l
      else ret tt
    else
      if same_element a lastFocusable
      then let* _ := preventDefault in let* f := deref firstFocusable in focus f
      else ret tt
  else ret tt.

(** ** Performance monitoring (lines 361-375) *)

Definition loadHandler (rt : env) : M unit :=
  if has_performance_timing rt
  then let* _ := setTimeout CbPerformance 0 in ret tt
  else ret tt.

(** ** The script

    [main] is the body of the immediately invoked function, top to bottom;
    the function declarations are hoisted, the [let] and [const] bindings
    are not: [cartCount] and the observers are unset until their line has
    run. *)

Definition setupCard (c : card) : M unit :=
  let addToCartBtn := c_addToCartBtn c in
  let quickViewBtn := c_quickViewBtn c in
  let* nameEl := deref (c_productName c) in
  let* productName := getTextContent nameEl in
  let* _ :=
    match addToCartBtn with
    | Some b => addEventListener (OnNode b) "click" (LAddToCart b productName)
    | None => ret tt
    end in
  let* _ :=
    match quickViewBtn with
    | Some b => addEventListener (OnNode b) "click" (LQuickView productName)
    | None => ret tt
    end in
  addEventListener (OnNode (c_node c)) "keydown" (LCardKeydown quickViewBtn productName).

Definition setupAnimated (el : node) : M unit :=
  let* _ := setStyle el "opacity" "0" in
  let* _ := setStyle el "transform" "translateY(20px)" in
  let* _ := setStyle el "transition" "opacity 0.6s ease, transform 0.6s ease" in
  observe Reveal el.

Definition setupNavigation (d : document) : M unit :=
  match q_navToggle d, q_navMenu d with
  | Some t, Some m =>
      let* _ := addEventListener (OnNode t) "click" (LToggleClick t m) in
      let* _ := forEach (q_navLinks d)
                  (fun link => addEventListener (OnNode link) "click" (LNavLinkClick t m)) in
      addEventListener OnDocument "click" (LOutsideClick t m)
  | _, _ => ret tt
  end.

Definition setupLazyBackgrounds (rt : env) (d : document) : M unit :=
  if has_IntersectionObserver rt
  then
    let* _ := new_IntersectionObserver rt LazyBackground in
    forEach (q_lazyBackgrounds d) (observe LazyBackground)
  else ret tt.

Definition setupFocusTrap (d : document) : M unit :=
  match q_navMenu d with
  | Some m =>
      let focusableElements := q_focusableElements d in
      let firstFocusable := head focusableElements in
      let lastFocusable := last focusableElements in
      addEventListener (OnNode m) "keydown" (LFocusTrap m firstFocusable lastFocusable)
  | None => ret tt
  end.

Definition main (rt : env) (d : document) : M unit :=
  let* _ := setupNavigation d in
  let* _ := forEach (q_anchors d)
              (fun anchor => addEventListener (OnNode anchor) "click" (LAnchorClick anchor)) in
  let* y := gets pageYOffset in
  let* _ := modify (set_lastScrollY y) in
  let* _ := addEventListener OnWindow "scroll" (LHandleScroll (q_header d)) in
  let* _ := forEach (q_productCards d) setupCard in
  let* _ := modify (set_cartCount (Some 0%nat)) in
  let* _ :=
    match q_newsletterForm d with
    | Some f => addEventListener (OnNode f) "submit" LNewsletterSubmit
    | None => ret tt
    end in
  let* _ := new_IntersectionObserver rt Reveal in
  let* _ := forEach (q_animatedElements d) setupAnimated in
  let* _ := setupLazyBackgrounds rt d in
  let* _ := addEventListener OnWindow "load" LLoad in
  let* _ := addEventListener OnDocument "keydown" (LEscape (q_navToggle d) (q_navMenu d)) in
  setupFocusTrap d.

(** ** Running closures *)

Definition run_listener (rt : env) (d : document) (l : listener) (e : event) : M unit :=
  match l with
  | LToggleClick t m => toggleClick t m
  | LNavLinkClick t m => navLinkClick t m
  | LOutsideClick t m => outsideClick t m e
  | LAnchorClick a => anchorClick rt d a
  | LHandleScroll h => handleScroll h
  | LAddToCart b name => addToCartClick d b name
  | LQuickView name => quickViewClick name
  | LCardKeydown q name => cardKeydown q name e
  | LNewsletterSubmit => newsletterSubmit d
  | LLoad => loadHandler rt
  | LEscape t m => escapeKeydown t m e
  | LFocusTrap m f l => focusTrapKeydown m f l e
  end.

Definition run_callback (cb : callback) : M unit :=
  match cb with
  | CbResetButton btn originalText =>
      let* _ := setTextContent btn originalText in
      setStyle btn "backgroundColor" EmptyString
  | CbRemoveAnnouncement a => removeChild a
  | CbLater h => later h
  | CbPerformance => ret tt
  end.

(** ** The event loop *)

(** Dispatch of an event of type [type]: the listeners registered on each
    target of the path are run in registration order; the walk stops after
    the target on which propagation was stopped. *)
Definition listeners_on (t : evtarget) (type : string) (w : world) : list listener :=
  omap (fun r => if bool_decide (r.1.1 = t) && bool_decide (r.1.2 = type)
                 then Some r.2 else None) (listeners w).

Fixpoint propagate (rt : env) (d : document) (type : string) (e : event)
    (path : list evtarget) : M unit :=
  match path with
  | [] => ret tt
  | t :: path =>
      let* ls := gets (listeners_on t type) in
      let* _ := forEach ls (fun l => report (run_listener rt d l e)) in
      let* stopped := gets propagationStopped in
      if stopped then ret tt else propagate rt d type e path
  end.

Definition dispatch (rt : env) (d : document) (type : string) (e : event) : M unit :=
  let* _ := modify (set_defaultPrevented false) in
  let* _ := modify (set_propagationStopped false) in
  propagate rt d type e (ev_path e).

(** Timers: [advance dt] lets [dt] milliseconds pass and runs the callbacks
    that fall due, earliest first and in order of registration among equals.
    No callback of the script sets a timer, so the number of pending timers
    bounds the number of callbacks to run. *)
Fixpoint earliest (l : list timer) : option timer :=
  match l with
  | [] => None
  | t :: l =>
      match earliest l with
      | Some u => if (tm_due u <? tm_due t)%nat then Some u else Some t
      | None => Some t
      end
  end.

Definition next_due (w : world) : option timer :=
  earliest (filter (λ t, (tm_due t ≤ now w)%nat) (timers w)).

Fixpoint run_timers (fuel : nat) : M unit :=
  match fuel with
  | O => ret tt
  | S fuel =>
      let* next := gets next_due in
      match next with
      | Some t =>
          let* _ := clearTimeout (Some (tm_id t)) in
          let* _ := report (run_callback (tm_callback t)) in
          run_timers fuel
      | None => ret tt
      end
  end.

Definition advance (dt : nat) : M unit :=
  let* _ := modify (fun w => set_now (now w + dt)%nat w) in
  let* n := gets (fun w => length (timers w)) in
  run_timers n.

(** An animation frame at time [t]: the callbacks requested so far run with
    [t] as their argument; what they request runs in a later frame. *)
Definition frame (rt : env) (t : Q) : M unit :=
  let* queue := gets raf_queue in
  let* _ := modify (set_raf_queue []) in
  forEach queue (fun a => report (animation rt a t)).



(** A page on which nothing has happened yet and the script has not run. *)
Definition blank : world :=
  mkWorld ∅ [] 0 None 0 [] 0 [] 0 [] [] false false [] 0 None None None None [].

(** A page with the given elements. *)
Definition page (es : list (node * element)) : world := set_elems (list_to_map es) blank.

(** * Vocabulary of the properties *)

(** The state a computation leaves and the outcome it has. *)
Definition exec {A} (m : M A) (w : world) : world := (m w).2.
Definition outcome_of {A} (m : M A) (w : world) : outcome A := (m w).1.

(** ** The menu *)

(** The [aria-expanded] attribute of the toggle, and agreement of the
    attribute with the [active] class of the menu. *)
Definition aria_expanded (t : node) (w : world) : option string :=
  attributes (getEl t w) !! "aria-expanded".

Definition menu_consistent (t m : node) (w : world) : Prop :=
  aria_expanded t w = Some "true" <-> "active" ∈ classList (getEl m w).

(** The operations on the menu, as the listeners that serve them: a click
    on the toggle, a click on a link of the menu, a click anywhere (seen by
    the listener on the document, which closes the menu when the click is
    outside) and a key press (seen by the listener on the document, which
    closes the menu on Escape). *)
Inductive menu_op :=
| ToggleClick
| LinkClick
| DocumentClick (e : event)
| DocumentKeydown (e : event).

Definition menu_handler (t m : node) (op : menu_op) : M unit :=
  match op with
  | ToggleClick => toggleClick t m
  | LinkClick => navLinkClick t m
  | DocumentClick e => outsideClick t m e
  | DocumentKeydown e => escapeKeydown (Some t) (Some m) e
  end.

(** The outcome and state after each handler of a sequence. *)
Fixpoint menu_trace (t m : node) (ops : list menu_op) (w : world) : list (outcome unit * world) :=
  match ops with
  | [] => []
  | op :: ops => menu_handler t m op w :: menu_trace t m ops (exec (menu_handler t m op) w)
  end.

(** ** Invariants of computations *)

(** [m] keeps [I], whatever its outcome. *)
Definition preserves {A} (I : world -> Prop) (m : M A) : Prop :=
  forall w, I w -> I (exec m w).

(** The listeners through which a click closes or toggles the menu. *)
Definition click_path (l : listener) : bool :=
  match l with
  | LToggleClick _ _ | LNavLinkClick _ _ | LOutsideClick _ _ => true
  | _ => false
  end.

Definition no_click_path (w : world) : Prop :=
  Forall (fun r => click_path r.2 = false) (listeners w).

(** ** A page to run the script on

    A storefront page with every element the script looks for: toggle 1,
    menu 2 with links 3 and 4, cart link 5, header 6, one product card 10
    (button 11, quick view 12, name 13), the newsletter form 20 (input 21,
    button 22), a section 30 below the fold (the target of link 3) and a
    background image 31. *)

Definition with_attr (k v : string) (e : element) : element := set_attributes (<[k := v]>) e.
Definition with_text (s : string) (e : element) : element := set_textContent s e.

Definition example_page : world :=
  page [ (3%nat, with_attr "href" "#about" (with_text "About" emptyElement));
         (4%nat, with_attr "href" "#" (with_text "Home" emptyElement));
         (5%nat, with_attr "href" "#cart" (with_text "Cart (0)" emptyElement));
         (11%nat, with_text "Add to cart" emptyElement);
         (13%nat, with_text "Silk bodysuit" emptyElement);
         (21%nat, set_value "user@example.com" emptyElement);
         (22%nat, with_text "Subscribe" emptyElement) ].

Definition example_document : document :=
  {| q_navToggle := Some 1%nat;
     q_navMenu := Some 2%nat;
     q_navLinks := [3; 4]%nat;
     q_anchors := [3; 4; 5]%nat;
     q_header := Some 6%nat;
     q_productCards := [mkCard (Some 11%nat) (Some 12%nat) (Some 13%nat) 10%nat];
     q_cartLink := Some 5%nat;
     q_newsletterForm := Some 20%nat;
     q_emailInput := Some 21%nat;
     q_submitBtn := Some 22%nat;
     q_animatedElements := [10; 30]%nat;
     q_lazyBackgrounds := [31]%nat;
     q_focusableElements := [3; 4]%nat;
     q_selector := fun s => if bool_decide (s = "#about") then Ok (Some 30%nat) else Ok None;
     offsetTop := fun n => if bool_decide (n = 30%nat) then 1060%Q else 0%Q |}.

(** A runtime with every capability, one without animation frames and one
    without intersection observers. *)
Definition full_runtime : env := mkEnv true true true.
Definition no_intersection_observer : env := mkEnv true false true.

(** The same page without a header, and with a product card that has no
    name. *)
Definition without_header (d : document) : document :=
  mkDocument (q_navToggle d) (q_navMenu d) (q_navLinks d) (q_anchors d) None
    (q_productCards d) (q_cartLink d) (q_newsletterForm d) (q_emailInput d) (q_submitBtn d)
    (q_animatedElements d) (q_lazyBackgrounds d) (q_focusableElements d) (q_selector d)
    (offsetTop d).
Definition with_cards (cs : list card) (d : document) : document :=
  mkDocument (q_navToggle d) (q_navMenu d) (q_navLinks d) (q_anchors d) (q_header d)
    cs (q_cartLink d) (q_newsletterForm d) (q_emailInput d) (q_submitBtn d)
    (q_animatedElements d) (q_lazyBackgrounds d) (q_focusableElements d) (q_selector d)
    (offsetTop d).
Definition without_toggle (d : document) : document :=
  mkDocument None (q_navMenu d) (q_navLinks d) (q_anchors d) (q_header d)
    (q_productCards d) (q_cartLink d) (q_newsletterForm d) (q_emailInput d) (q_submitBtn d)
    (q_animatedElements d) (q_lazyBackgrounds d) (q_focusableElements d) (q_selector d)
    (offsetTop d).

(** Events. *)
Definition click_on (path : list evtarget) : event := mkEvent path EmptyString false.
Definition key_on (path : list evtarget) (key : string) (shift : bool) : event :=
  mkEvent path key shift.
Definition scroll_event : event := mkEvent [OnWindow] EmptyString false.

(** ** Smooth scrolling *)

(** The frames of an animation, at the given time stamps. *)
Definition run_frames (rt : env) (ts : list Q) : M unit := forEach ts (frame rt).

(** The offset [smoothScrollTo] aims at: the top of the target, less the
    height of the header. *)
Definition destination (d : document) (target : node) : Q := (offsetTop d target - 60)%Q.

(** ** Announcements and transient labels *)

(** The live region that [announceToScreenReader] builds, and the world
    after the call: the region is a child of the body and a timer is set to
    remove it after 1000 ms. *)
Definition live_region (message : string) : element :=
  set_textContent message
    (set_classList (fun _ => ["visually-hidden"])
       (set_attributes (<["aria-live" := "polite"]>)
          (set_attributes (<["role" := "status"]>) emptyElement))).

Definition announced (message : string) (w : world) : world :=
  set_next_timer (S (next_timer w))
    (set_timers
       (timers w ++ [mkTimer (next_timer w) (now w + 1000) (CbRemoveAnnouncement (next_child w))])
       (set_next_child (S (next_child w))
          (set_body_children (body_children w ++ [(next_child w, live_region message)]) w))).

(** The messages of the live regions on the page, oldest first. *)
Definition announcements (w : world) : list string :=
  map (fun c => textContent c.2) (body_children w).

(** One timer callback: the timer is taken off the list and its callback
    runs. *)
Definition fire (t : timer) (w : world) : world :=
  exec (report (run_callback (tm_callback t))) (exec (clearTimeout (Some (tm_id t))) w).

(** ** The cart *)







(** ** One-shot observers *)

(** The write that the callback of an observer performs on a target. *)
Definition eff (o : obs) (n : node) : effect :=
  match o with
  | Reveal => EReveal n
  | LazyBackground => ELoaded n
  end.

(** How many times a write has been performed. *)
Definition times (x : effect) (w : world) : nat :=
  length (filter (λ y, y = x) (effects w)).

(** What the callback of an observer does with one entry. *)
Definition entry_step (o : obs) (entry : entry) : M unit :=
  match o with
  | Reveal =>
      if entry.2 then
        let* _ := setStyle entry.1 "opacity" "1" in
        let* _ := setStyle entry.1 "transform" "translateY(0)" in
        let* _ := record (EReveal entry.1) in
        unobserve Reveal entry.1
      else ret tt
  | LazyBackground =>
      if entry.2 then
        let* _ := classList_add entry.1 "loaded" in
        let* _ := record (ELoaded entry.1) in
        unobserve LazyBackground entry.1
      else ret tt
  end.






(** An element has the styling that the reveal callback gives it, or the
    class that the lazy-background callback gives it. *)
Definition revealed (n : node) (w : world) : Prop :=
  style (getEl n w) !! "opacity" = Some "1" /\
  style (getEl n w) !! "transform" = Some "translateY(0)".

Definition loaded (n : node) (w : world) : Prop := "loaded" ∈ classList (getEl n w).

(** ** The email pattern *)


(** ** More of the menu *)

(** The scroll lock of the page: [document.body.style.overflow] is
    ['hidden']; and its agreement with the [active] class of the menu. *)
Definition scroll_locked (w : world) : Prop :=
  style (getEl body w) !! "overflow" = Some "hidden".

Definition lock_consistent (m : node) (w : world) : Prop :=
  scroll_locked w <-> "active" ∈ classList (getEl m w).

(** The state of a menu that has just been closed. *)
Definition menu_closed (t m : node) (w : world) : Prop :=
  ("active" ∉ classList (getEl m w)) /\
  aria_expanded t w = Some "false" /\
  style (getEl body w) !! "overflow" = None.

(** ** Scrolling by the user *)

(** The user scrolls the page to offset [y]: the offset changes and the
    scroll event reaches the debounced listener. *)
Definition user_scroll (header : option node) (y : Q) : M unit :=
  let* _ := scrollTo y in
  handleScroll header.

(** A burst of scrolling: a first scroll to [y0], then scrolls to further
    offsets, each a number of milliseconds after the one before. *)
Definition scroll_burst (header : option node) (y0 : Q) (rest : list (nat * Q)) : M unit :=
  let* _ := user_scroll header y0 in
  forEach rest (fun s => let* _ := advance s.1 in user_scroll header s.2).

(** The offset at which a burst ends. *)
Definition last_offset (y0 : Q) (rest : list (nat * Q)) : Q := List.last (map snd rest) y0.

(** The state of the debounce while a call is pending: one timer, the one
    that [timeout] names, due 10 ms after the latest call, and the scroll
    function has not run since [w]. *)
Definition debounce_pending (header : option node) (w w' : world) : Prop :=
  timers w' = [mkTimer (next_timer w' - 1) (now w' + 10) (CbLater header)] /\
  timeout w' = Some (next_timer w' - 1)%nat /\
  (0 < next_timer w')%nat /\
  lastScrollY w' = lastScrollY w /\
  elems w' = elems w /\
  uncaught w' = uncaught w.

(** ** Announcements *)

(** The children that the script has appended to the body have identities
    below the next one to be given out. *)
Definition children_fresh (w : world) : Prop :=
  Forall (λ c, (c.1 < next_child w)%nat) (body_children w).


(** ** What an observer callback leaves behind *)

(** The styling or the class that the callback of an observer gives to a
    target. *)
Definition written (o : obs) (n : node) (w : world) : Prop :=
  match o with
  | Reveal => revealed n w
  | LazyBackground => loaded n w
  end.

(** The targets that a list of entries reports as intersecting. *)
Definition intersecting (es : list entry) (n : node) : Prop := (n, true) ∈ es.

#[global] Instance intersecting_dec es n : Decision (intersecting es n) :=
  decide ((n, true) ∈ es).

(** ** What the script has set up when it returns *)

(** The styling that line 301 gives to an element that is to be revealed. *)
Definition hidden (n : node) (w : world) : Prop :=
  style (getEl n w) !! "opacity" = Some "0" /\
  style (getEl n w) !! "transform" = Some "translateY(20px)" /\
  style (getEl n w) !! "transition" = Some "opacity 0.6s ease, transform 0.6s ease".

(** The observer [o] exists and its targets are the elements of [l], each
    one once. *)
Definition observes (o : obs) (l : list node) (w : world) : Prop :=
  exists ts, get_obs o w = Some ts /\ NoDup ts /\ forall n, n ∈ ts <-> n ∈ l.

(** Every product card has a name. *)
Definition cards_named (d : document) : Prop :=
  Forall (λ c, is_Some (c_productName c)) (q_productCards d).

(** What the script never touches while it sets up: the scroll position,
    the focus, the address, the children added to the body, the clock, the
    timers, the animation frames, the flags of the event and the uncaught
    exceptions. *)
Definition kept (w0 w : world) : Prop :=
  body_children w = body_children w0 /\ next_child w = next_child w0 /\
  activeElement w = activeElement w0 /\ pageYOffset w = pageYOffset w0 /\
  history w = history w0 /\ now w = now w0 /\ timers w = timers w0 /\
  next_timer w = next_timer w0 /\ raf_queue w = raf_queue w0 /\
  defaultPrevented w = defaultPrevented w0 /\
  propagationStopped w = propagationStopped w0 /\
  uncaught w = uncaught w0 /\ timeout w = timeout w0 /\ effects w = effects w0.

(** The state of the set-up once the elements [done] have been hidden and
    given to the reveal observer, and once the elements [done'] have been
    given to the observer of the lazy backgrounds. *)
Definition animated_set_up (w0 : world) (done : list node) (w : world) : Prop :=
  kept w0 w /\
  lastScrollY w = pageYOffset w0 /\
  cartCount w = Some 0%nat /\
  observes Reveal done w /\
  (forall n, n ∈ done -> hidden n w) /\
  (forall n, n ∉ done -> getEl n w = getEl n w0).

Definition lazy_set_up (w0 : world) (animated done' : list node) (w : world) : Prop :=
  animated_set_up w0 animated w /\ observes LazyBackground done' w.

(** A computation that returns from every state that satisfies [P], in a
    state that satisfies [Q]. *)
Definition returns {A} (P : world -> Prop) (m : M A) (Q : A -> world -> Prop) : Prop :=
  forall w, P w -> exists a w', m w = (Ok a, w') /\ Q a w'.

(** A property that does not depend on the listeners installed. *)
Definition listener_blind (P : world -> Prop) : Prop :=
  forall w x, P w -> P (set_listeners x w).
(** * Properties *)

(** ** Facts about the store *)

Lemma getEl_updEl n m f w :
  getEl n (updEl m f w) = if decide (m = n) then f (getEl m w) else getEl n w.
Proof.
  unfold getEl at 1, updEl. cbn. rewrite lookup_insert.
  case_decide; [subst | ]; reflexivity.
Qed.

Lemma getEl_updEl_eq n f w : getEl n (updEl n f w) = f (getEl n w).
Proof. rewrite getEl_updEl, decide_True; done. Qed.

Lemma getEl_updEl_ne n m f w : m ≠ n -> getEl n (updEl m f w) = getEl n w.
Proof. intros. rewrite getEl_updEl, decide_False; done. Qed.

(** A field that [f] leaves alone is left alone on every element. *)
Lemma updEl_preserves {A} (P : element -> A) n m f w :
  (forall e, P (f e) = P e) -> P (getEl n (updEl m f w)) = P (getEl n w).
Proof. intros H. rewrite getEl_updEl. case_decide; subst; auto. Qed.

Section Frames.
Variables (n m : node) (w : world).
Variables (fa fs : gmap string string -> gmap string string).
Variables (fc : list string -> list string) (s : string).

Lemma attributes_classList : attributes (getEl n (updEl m (set_classList fc) w)) = attributes (getEl n w).
Proof. by apply (updEl_preserves attributes). Qed.
Lemma attributes_style : attributes (getEl n (updEl m (set_style fs) w)) = attributes (getEl n w).
Proof. by apply (updEl_preserves attributes). Qed.
Lemma attributes_textContent : attributes (getEl n (updEl m (set_textContent s) w)) = attributes (getEl n w).
Proof. by apply (updEl_preserves attributes). Qed.
Lemma attributes_value : attributes (getEl n (updEl m (set_value s) w)) = attributes (getEl n w).
Proof. by apply (updEl_preserves attributes). Qed.

Lemma classList_attributes : classList (getEl n (updEl m (set_attributes fa) w)) = classList (getEl n w).
Proof. by apply (updEl_preserves classList). Qed.
Lemma classList_style : classList (getEl n (updEl m (set_style fs) w)) = classList (getEl n w).
Proof. by apply (updEl_preserves classList). Qed.
Lemma classList_textContent : classList (getEl n (updEl m (set_textContent s) w)) = classList (getEl n w).
Proof. by apply (updEl_preserves classList). Qed.
Lemma classList_value : classList (getEl n (updEl m (set_value s) w)) = classList (getEl n w).
Proof. by apply (updEl_preserves classList). Qed.

Lemma style_attributes : style (getEl n (updEl m (set_attributes fa) w)) = style (getEl n w).
Proof. by apply (updEl_preserves style). Qed.
Lemma style_classList : style (getEl n (updEl m (set_classList fc) w)) = style (getEl n w).
Proof. by apply (updEl_preserves style). Qed.
Lemma style_textContent : style (getEl n (updEl m (set_textContent s) w)) = style (getEl n w).
Proof. by apply (updEl_preserves style). Qed.
Lemma style_value : style (getEl n (updEl m (set_value s) w)) = style (getEl n w).
Proof. by apply (updEl_preserves style). Qed.

Lemma textContent_attributes : textContent (getEl n (updEl m (set_attributes fa) w)) = textContent (getEl n w).
Proof. by apply (updEl_preserves textContent). Qed.
Lemma textContent_classList : textContent (getEl n (updEl m (set_classList fc) w)) = textContent (getEl n w).
Proof. by apply (updEl_preserves textContent). Qed.
Lemma textContent_style : textContent (getEl n (updEl m (set_style fs) w)) = textContent (getEl n w).
Proof. by apply (updEl_preserves textContent). Qed.
Lemma textContent_value : textContent (getEl n (updEl m (set_value s) w)) = textContent (getEl n w).
Proof. by apply (updEl_preserves textContent). Qed.

Lemma value_attributes : value (getEl n (updEl m (set_attributes fa) w)) = value (getEl n w).
Proof. by apply (updEl_preserves value). Qed.
Lemma value_classList : value (getEl n (updEl m (set_classList fc) w)) = value (getEl n w).
Proof. by apply (updEl_preserves value). Qed.
Lemma value_style : value (getEl n (updEl m (set_style fs) w)) = value (getEl n w).
Proof. by apply (updEl_preserves value). Qed.
Lemma value_textContent : value (getEl n (updEl m (set_textContent s) w)) = value (getEl n w).
Proof. by apply (updEl_preserves value). Qed.
End Frames.

Create Rewrite HintDb store.
#[global] Hint Rewrite
  attributes_classList attributes_style attributes_textContent attributes_value
  classList_attributes classList_style classList_textContent classList_value
  style_attributes style_classList style_textContent style_value
  textContent_attributes textContent_classList textContent_style textContent_value
  value_attributes value_classList value_style value_textContent
  getEl_updEl_eq : store.

(** Closed statements about runs of the script are settled by evaluation. *)
Ltac evaluate :=
  cbv zeta; repeat match goal with |- _ /\ _ => split end; vm_compute; reflexivity.

(** Running straight-line code of the monad on a symbolic world. *)
Ltac run_M :=
  cbv [bind ret throw gets modify modEl getAttribute setAttribute classList_contains
       classList_add classList_remove classList_toggle setStyle getTextContent
       setTextContent getValue setValue focus scrollTo pushState preventDefault
       stopPropagation deref liftOutcome fst snd].

(** The elements do not depend on the fields of the world that are not
    elements. *)
Lemma getEl_elems n w w' : elems w = elems w' -> getEl n w = getEl n w'.
Proof. unfold getEl. by intros ->. Qed.

(** ** Class lists *)

Lemma cl_contains_spec c l : cl_contains c l = true <-> c ∈ l.
Proof. unfold cl_contains. apply bool_decide_eq_true. Qed.

Lemma cl_remove_not_in c l : c ∉ cl_remove c l.
Proof. unfold cl_remove. rewrite list_elem_of_filter. tauto. Qed.

Lemma cl_toggle_in c l : c ∈ cl_toggle c l <-> c ∉ l.
Proof.
  unfold cl_toggle, cl_add, cl_contains. case_bool_decide as H.
  - split; [intros H'; by apply cl_remove_not_in in H' | done].
  - set_solver.
Qed.

(** ** The menu: attribute and class agree *)

Lemma toggleClick_consistent t m w :
  menu_consistent t m w ->
  outcome_of (toggleClick t m) w = Ok tt /\ menu_consistent t m (exec (toggleClick t m) w).
Proof.
  intros H. split; [reflexivity|].
  unfold menu_consistent, aria_expanded, exec, toggleClick in *. run_M.
  autorewrite with store. cbn [attributes classList set_attributes set_classList].
  autorewrite with store. rewrite lookup_insert_eq, cl_toggle_in.
  case_bool_decide as E; cbn; split; try done; tauto.
Qed.

(** The three ways of closing leave the menu closed and the attribute
    ["false"]. *)
Lemma close_consistent t m w :
  menu_consistent t m
    (updEl body (set_style (style_assign "overflow" EmptyString))
       (updEl t (set_attributes (<["aria-expanded" := "false"]>))
          (updEl m (set_classList (cl_remove "active")) w))).
Proof.
  unfold menu_consistent, aria_expanded.
  autorewrite with store. cbn [attributes classList set_attributes set_classList].
  rewrite lookup_insert_eq. split; [done|].
  intros H. by apply cl_remove_not_in in H.
Qed.

Lemma navLinkClick_consistent t m w :
  outcome_of (navLinkClick t m) w = Ok tt /\ menu_consistent t m (exec (navLinkClick t m) w).
Proof. split; [reflexivity | apply close_consistent]. Qed.

Lemma outsideClick_consistent t m e w :
  menu_consistent t m w ->
  outcome_of (outsideClick t m e) w = Ok tt /\ menu_consistent t m (exec (outsideClick t m e) w).
Proof.
  intros H. unfold outcome_of, exec, outsideClick. run_M.
  destruct (_ && _ && _); cbn; [split; [reflexivity | apply close_consistent] | done].
Qed.

Lemma escapeKeydown_consistent t m e w :
  menu_consistent t m w ->
  outcome_of (escapeKeydown (Some t) (Some m) e) w = Ok tt /\
  menu_consistent t m (exec (escapeKeydown (Some t) (Some m) e) w).
Proof.
  intros H. unfold outcome_of, exec, escapeKeydown. run_M.
  case_bool_decide; [ | done].
  destruct (cl_contains _ _); cbn; [ | done].
  split; [reflexivity|]. apply close_consistent.
Qed.

Lemma menu_handler_consistent t m op w :
  menu_consistent t m w ->
  outcome_of (menu_handler t m op) w = Ok tt /\ menu_consistent t m (exec (menu_handler t m op) w).
Proof.
  destruct op; cbn [menu_handler]; intros H.
  - by apply toggleClick_consistent.
  - apply navLinkClick_consistent.
  - by apply outsideClick_consistent.
  - by apply escapeKeydown_consistent.
Qed.

(** C1: for every sequence of menu operations (toggle click, link click,
    click seen by the document listener, key press seen by the Escape
    listener) on a page whose toggle and menu exist and agree, every handler
    completes without throwing, and after each of them the [aria-expanded]
    attribute of the toggle is ["true"] exactly when the menu has the
    [active] class. *)
Theorem menu_attribute_class_agree (t m : node) (ops : list menu_op) (w : world) :
  menu_consistent t m w ->
  Forall (fun r => r.1 = Ok tt /\ menu_consistent t m r.2) (menu_trace t m ops w).
Proof.
  revert w. induction ops as [|op ops IH]; intros w H; cbn [menu_trace].
  - constructor.
  - destruct (menu_handler_consistent t m op w H) as [Hok Hc].
    constructor; [split; assumption | apply IH, Hc].
Qed.

(** ** Reasoning about computations *)

Lemma bind_Ok_inv {A B} (m : M A) (k : A -> M B) w b w' :
  bind m k w = (Ok b, w') -> exists a w1, m w = (Ok a, w1) /\ k a w1 = (Ok b, w').
Proof.
  unfold bind. destruct (m w) as [[a|e] w1]; [eauto | discriminate].
Qed.

Lemma exec_bind {A B} (m : M A) (k : A -> M B) w a :
  outcome_of m w = Ok a -> exec (bind m k) w = exec (k a) (exec m w).
Proof. unfold outcome_of, exec, bind. destruct (m w) as [[?|?] ?]; cbn; congruence. Qed.

Lemma outcome_bind {A B} (m : M A) (k : A -> M B) w a :
  outcome_of m w = Ok a -> outcome_of (bind m k) w = outcome_of (k a) (exec m w).
Proof. unfold outcome_of, exec, bind. destruct (m w) as [[?|?] ?]; cbn; congruence. Qed.

Lemma outcome_bind_throw {A B} (m : M A) (k : A -> M B) w e :
  outcome_of m w = Throw e -> outcome_of (bind m k) w = Throw e.
Proof. unfold outcome_of, bind. destruct (m w) as [[?|?] ?]; cbn; congruence. Qed.

Lemma report_ok m w : outcome_of (report m) w = Ok tt.
Proof. unfold outcome_of, report. by destruct (m w) as [[?|?] ?]. Qed.

Lemma forEach_report_ok {A} (l : list A) (f : A -> M unit) w :
  outcome_of (forEach l (fun a => report (f a))) w = Ok tt.
Proof.
  revert w. induction l as [|a l IH]; intros w; [done|]. cbn [forEach].
  rewrite (outcome_bind _ _ _ tt) by apply report_ok. apply IH.
Qed.


Section Preserves.
Variable I : world -> Prop.

Lemma preserves_ret {A} (a : A) : preserves I (ret a).
Proof. by intros w. Qed.

Lemma preserves_throw {A} e : preserves I (throw (A := A) e).
Proof. by intros w. Qed.

Lemma preserves_gets {A} (f : world -> A) : preserves I (gets f).
Proof. by intros w. Qed.


Lemma preserves_modify f : (forall w, I w -> I (f w)) -> preserves I (modify f).
Proof. intros H w. apply H. Qed.

Lemma preserves_bind {A B} (m : M A) (k : A -> M B) :
  preserves I m -> (forall a, preserves I (k a)) -> preserves I (bind m k).
Proof.
  intros Hm Hk w Hw. unfold exec, bind. specialize (Hm w Hw). unfold exec in Hm.
  destruct (m w) as [[a|e] w1]; [apply Hk, Hm | apply Hm].
Qed.

Lemma preserves_forEach {A} (l : list A) (f : A -> M unit) :
  (forall a, preserves I (f a)) -> preserves I (forEach l f).
Proof.
  intros H. induction l as [|a l IH]; cbn [forEach].
  - apply preserves_ret.
  - apply preserves_bind; [apply H | intros _; apply IH].
Qed.
End Preserves.

(** ** The Escape handler without a toggle *)

Lemma no_click_path_add t type l w :
  click_path l = false -> no_click_path w ->
  no_click_path (exec (addEventListener t type l) w).
Proof.
  unfold no_click_path. cbn. intros Hl Hw. apply Forall_app. split; [done|].
  by constructor.
Qed.

(** Everything but [setupNavigation] keeps the listeners free of click
    paths. *)
Ltac keeps_step :=
  first
    [ apply preserves_ret | apply preserves_throw | apply preserves_gets
    | apply preserves_bind; [ | intros ? ]
    | apply preserves_forEach; intros ?
    | (apply preserves_modify; intros ? ?; assumption)
    | (intros ? ?; apply no_click_path_add; [reflexivity | assumption])
    | match goal with |- preserves _ (match ?x with _ => _ end) => destruct x end
    | match goal with |- preserves _ (if ?x then _ else _) => destruct x end ].

Lemma deref_no_click_path o : preserves no_click_path (deref o).
Proof. destruct o; repeat keeps_step. Qed.

Lemma setupCard_no_click_path c : preserves no_click_path (setupCard c).
Proof.
  unfold setupCard, getTextContent.
  repeat first [apply deref_no_click_path | keeps_step].
Qed.

Lemma set_obs_no_click_path o x : preserves no_click_path (modify (set_obs o x)).
Proof. intros w H. by destruct o. Qed.

Lemma observe_no_click_path o n : preserves no_click_path (observe o n).
Proof. unfold observe. repeat first [apply set_obs_no_click_path | keeps_step]. Qed.

Lemma setupAnimated_no_click_path el : preserves no_click_path (setupAnimated el).
Proof.
  unfold setupAnimated, setStyle, modEl.
  repeat first [apply observe_no_click_path | keeps_step].
Qed.

Lemma new_IntersectionObserver_no_click_path rt o :
  preserves no_click_path (new_IntersectionObserver rt o).
Proof.
  unfold new_IntersectionObserver. repeat first [apply set_obs_no_click_path | keeps_step].
Qed.

Lemma setupNavigation_skipped d w :
  q_navToggle d = None \/ q_navMenu d = None -> setupNavigation d w = (Ok tt, w).
Proof.
  unfold setupNavigation. intros [-> | ->]; [reflexivity | by destruct (q_navToggle d)].
Qed.

Lemma main_no_click_path rt d :
  q_navToggle d = None \/ q_navMenu d = None -> preserves no_click_path (main rt d).
Proof.
  intros H. unfold main. apply preserves_bind.
  { intros w Hw. unfold exec. by rewrite setupNavigation_skipped. }
  intros _. unfold setupLazyBackgrounds, setupFocusTrap.
  repeat first
    [ apply setupCard_no_click_path | apply setupAnimated_no_click_path
    | apply new_IntersectionObserver_no_click_path | apply observe_no_click_path
    | keeps_step ].
Qed.

Lemma main_installs_escape rt d w w' :
  main rt d w = (Ok tt, w') ->
  (OnDocument, "keydown", LEscape (q_navToggle d) (q_navMenu d)) ∈ listeners w'.
Proof.
  unfold main. intros H.
  do 12 (apply bind_Ok_inv in H as (? & ? & _ & H)).
  unfold setupFocusTrap in H. destruct (q_navMenu d); cbn in H.
  all: injection H as <-; cbn; set_solver.
Qed.

(** C10: where the page has a menu that carries the [active] class but no
    toggle, the Escape listener removes the class and then throws a
    [TypeError] on [navToggle.setAttribute]: the attribute is not written,
    the scroll lock of the body is not lifted and focus does not move.  The
    script installs that listener whenever it runs to its end, while none of
    the listeners through which a click closes the menu is installed when
    one of the two elements is missing. *)
Theorem escape_dereferences_null_toggle (rt : env) (d : document) (m : node) (e : event)
    (w0 w1 w : world) :
  q_navToggle d = None ->
  q_navMenu d = Some m ->
  ev_key e = "Escape" ->
  "active" ∈ classList (getEl m w) ->
  (* the handler *)
  escapeKeydown None (Some m) e w =
    (Throw TypeError, updEl m (set_classList (cl_remove "active")) w) /\
  (* the setup *)
  (main rt d w0 = (Ok tt, w1) ->
   (OnDocument, "keydown", LEscape None (Some m)) ∈ listeners w1) /\
  (no_click_path w0 -> no_click_path (exec (main rt d) w0)).
Proof.
  intros Ht Hm Hk Ha. split; [ | split].
  - unfold escapeKeydown. run_M. rewrite bool_decide_eq_true_2 by done.
    apply cl_contains_spec in Ha. by rewrite Ha.
  - intros H. apply main_installs_escape in H. by rewrite Ht, Hm in H.
  - apply main_no_click_path. by left.
Qed.

(** ** The focus trap *)

Lemma main_installs_focusTrap rt d m w w' :
  q_navMenu d = Some m ->
  main rt d w = (Ok tt, w') ->
  (OnNode m, "keydown",
   LFocusTrap m (head (q_focusableElements d)) (last (q_focusableElements d))) ∈ listeners w'.
Proof.
  unfold main. intros Hm H.
  do 13 (apply bind_Ok_inv in H as (? & ? & _ & H)).
  unfold setupFocusTrap in H. rewrite Hm in H. cbn in H.
  injection H as <-. cbn. set_solver.
Qed.

(** C9: the listener that the script installs on the menu captures the
    first and the last of the focusable descendants that the menu has when
    the script runs (page [d]).  While the menu is open, Tab with focus on
    that last element moves focus to that first one and Shift+Tab with focus
    on the first moves it to the last, the default action being prevented;
    this holds on whatever the page [d'] has become when the key is pressed,
    the two elements are not computed again: Tab on any other element, such
    as a new last descendant, is left to the browser. *)
Theorem focus_trap_wraps (rt : env) (d d' : document) (m f l : node) (e : event)
    (w0 w1 w : world) :
  q_navMenu d = Some m ->
  head (q_focusableElements d) = Some f ->
  last (q_focusableElements d) = Some l ->
  main rt d w0 = (Ok tt, w1) ->
  "active" ∈ classList (getEl m w) ->
  ev_key e = "Tab" ->
  (OnNode m, "keydown", LFocusTrap m (Some f) (Some l)) ∈ listeners w1 /\
  (ev_shiftKey e = false -> activeElement w = Some l ->
   run_listener rt d' (LFocusTrap m (Some f) (Some l)) e w =
     (Ok tt, set_activeElement (Some f) (set_defaultPrevented true w))) /\
  (ev_shiftKey e = true -> activeElement w = Some f ->
   run_listener rt d' (LFocusTrap m (Some f) (Some l)) e w =
     (Ok tt, set_activeElement (Some l) (set_defaultPrevented true w))) /\
  (ev_shiftKey e = false -> activeElement w ≠ Some l ->
   run_listener rt d' (LFocusTrap m (Some f) (Some l)) e w = (Ok tt, w)).
Proof.
  intros Hm Hf Hl Hmain Ha Hk. apply cl_contains_spec in Ha.
  split; [ | split; [ | split]].
  - rewrite <- Hf, <- Hl. by apply (main_installs_focusTrap rt d m w0).
  - intros Hs Hfoc. cbn [run_listener]. unfold focusTrapKeydown. run_M.
    rewrite Ha, Hs, (bool_decide_eq_true_2 _ Hk). cbn.
    rewrite Hfoc. cbn. by rewrite bool_decide_eq_true_2.
  - intros Hs Hfoc. cbn [run_listener]. unfold focusTrapKeydown. run_M.
    rewrite Ha, Hs, (bool_decide_eq_true_2 _ Hk). cbn.
    rewrite Hfoc. cbn. by rewrite bool_decide_eq_true_2.
  - intros Hs Hfoc. cbn [run_listener]. unfold focusTrapKeydown. run_M.
    rewrite Ha, Hs, (bool_decide_eq_true_2 _ Hk). cbn.
    destruct (activeElement w) as [x|]; cbn; [ | done].
    rewrite bool_decide_eq_false_2; [done | congruence].
Qed.

(** ** The easing curve *)

Section Ease.
Open Scope Q_scope.










End Ease.

(** ** Smooth scrolling *)

Section SmoothScroll.
Open Scope Q_scope.
Variable rt : env.
Hypothesis has_raf : has_requestAnimationFrame rt = true.




End SmoothScroll.

(** C3: the page is at the top, the target lies 1060 below it, and the
    frames of the animation come at 0, 500 and 1250 ms.  The animation ends
    with the third frame, 250 ms after the duration, and the offset written
    last is 875, which is 125 short of the destination 1000.  (Every number
    of this run is a binary fraction, so the arithmetic is the same in
    floating point.) *)
Theorem smoothScrollTo_late_frame_misses :
  let w := exec (run_frames full_runtime [0; 500; 1250]%Q)
             (exec (smoothScrollTo full_runtime example_document 30%nat) example_page) in
  raf_queue w = [] /\
  (pageYOffset w == 875)%Q /\
  (destination example_document 30%nat == 1000)%Q /\
  ~ (Qabs (pageYOffset w - destination example_document 30%nat) <= 1)%Q.
Proof.
  cbv zeta. split; [ | split; [ | split]].
  - vm_compute. reflexivity.
  - vm_compute. reflexivity.
  - vm_compute. reflexivity.
  - intros H. apply Qle_bool_iff in H. vm_compute in H. discriminate.
Qed.

(** ** Missing elements *)

(** Where the name of a product card is missing, the setup of that card
    throws before it installs anything. *)
Lemma setupCard_without_name c w :
  c_productName c = None -> setupCard c w = (Throw TypeError, w).
Proof. unfold setupCard. by intros ->. Qed.

(** Where the header is missing, the debounced scroll function throws once
    the timer runs it. *)
Lemma scrollFunc_without_header w :
  outcome_of (scrollFunc None) w = Throw TypeError.
Proof. unfold outcome_of, scrollFunc. run_M. by destruct (_ && _). Qed.

Lemma forEach_ok {A} (l : list A) (f : A -> M unit) :
  (forall a w, outcome_of (f a) w = Ok tt) -> forall w, outcome_of (forEach l f) w = Ok tt.
Proof.
  intros H. induction l as [|a l IH]; intros w; [done|]. cbn [forEach].
  rewrite (outcome_bind _ _ _ tt) by apply H. apply IH.
Qed.

Lemma forEach_throws {A} (l : list A) (f : A -> M unit) a e :
  a ∈ l ->
  (forall w, outcome_of (f a) w = Throw e) ->
  (forall b w, outcome_of (f b) w = Ok tt \/ outcome_of (f b) w = Throw e) ->
  forall w, outcome_of (forEach l f) w = Throw e.
Proof.
  intros Hin Ha Hall. induction l as [|b l IH]; intros w; [by apply elem_of_nil in Hin|].
  cbn [forEach]. destruct (Hall b w) as [Hb | Hb].
  - rewrite (outcome_bind _ _ _ tt) by exact Hb.
    apply elem_of_cons in Hin as [-> | Hin]; [by rewrite Ha in Hb | by apply IH].
  - by apply outcome_bind_throw.
Qed.

Lemma setupNavigation_ok d w : outcome_of (setupNavigation d) w = Ok tt.
Proof.
  unfold setupNavigation. destruct (q_navToggle d) as [t|], (q_navMenu d) as [m|]; try done.
  rewrite (outcome_bind _ _ _ tt) by done.
  rewrite (outcome_bind _ _ _ tt) by by apply forEach_ok.
  done.
Qed.

Lemma setupCard_outcome c w :
  outcome_of (setupCard c) w =
    match c_productName c with Some _ => Ok tt | None => Throw TypeError end.
Proof.
  unfold outcome_of, setupCard.
  destruct (c_productName c), (c_addToCartBtn c), (c_quickViewBtn c); reflexivity.
Qed.

(** On every page with a product card that has no name, the script throws
    a [TypeError] while it sets up the cards. *)
Lemma main_card_without_name rt d c w :
  c ∈ q_productCards d -> c_productName c = None ->
  outcome_of (main rt d) w = Throw TypeError.
Proof.
  intros Hin Hc. unfold main.
  rewrite (outcome_bind _ _ _ tt) by apply setupNavigation_ok.
  rewrite (outcome_bind _ _ _ tt) by by apply forEach_ok.
  rewrite (outcome_bind _ _ _ (pageYOffset (exec (forEach (q_anchors d)
            (fun anchor => addEventListener (OnNode anchor) "click" (LAnchorClick anchor)))
            (exec (setupNavigation d) w)))) by done.
  rewrite (outcome_bind _ _ _ tt) by done.
  rewrite (outcome_bind _ _ _ tt) by done.
  apply outcome_bind_throw, (forEach_throws _ _ c); [done | | ].
  - intros w'. by rewrite setupCard_outcome, Hc.
  - intros b w'. rewrite setupCard_outcome. destruct (c_productName b); auto.
Qed.

(** C2: two pages on which the script fails.  On the page without a
    header the script runs to its end, but a scroll event followed by the
    10 ms of the debounce ends in an uncaught [TypeError].  On the page
    whose only product card has no name the script itself throws a
    [TypeError] in the setup of the card, and nothing that comes after it
    is installed: no newsletter listener, no Escape listener, no focus
    trap, and the observers are not created. *)
Theorem missing_element_throws :
  let d1 := without_header example_document in
  let w1 := exec (main full_runtime d1) example_page in
  let d2 := with_cards [mkCard (Some 11%nat) (Some 12%nat) None 10%nat] example_document in
  let w2 := exec (main full_runtime d2) example_page in
  outcome_of (main full_runtime d1) example_page = Ok tt /\
  uncaught (exec (let* _ := dispatch full_runtime d1 "scroll" scroll_event in advance 10) w1)
    = [TypeError] /\
  outcome_of (main full_runtime d2) example_page = Throw TypeError /\
  listeners w2 =
    [ (OnNode 1%nat, "click", LToggleClick 1%nat 2%nat);
      (OnNode 3%nat, "click", LNavLinkClick 1%nat 2%nat);
      (OnNode 4%nat, "click", LNavLinkClick 1%nat 2%nat);
      (OnDocument, "click", LOutsideClick 1%nat 2%nat);
      (OnNode 3%nat, "click", LAnchorClick 3%nat);
      (OnNode 4%nat, "click", LAnchorClick 4%nat);
      (OnNode 5%nat, "click", LAnchorClick 5%nat);
      (OnWindow, "scroll", LHandleScroll (Some 6%nat)) ] /\
  observer w2 = None /\ cartCount w2 = None.
Proof. evaluate. Qed.

(** ** Announcements and timers *)

Lemma announceToScreenReader_run message w :
  announceToScreenReader message w = (Ok tt, announced message w).
Proof. reflexivity. Qed.

Lemma advance_unfold dt w :
  advance dt w = run_timers (length (timers w)) (set_now (now w + dt)%nat w).
Proof. reflexivity. Qed.

Lemma run_timers_idle n w : next_due w = None -> run_timers n w = (Ok tt, w).
Proof. intros H. destruct n; [done|]. cbn [run_timers]. run_M. by rewrite H. Qed.

Lemma run_timers_fire n w t :
  next_due w = Some t -> run_timers (S n) w = run_timers n (fire t w).
Proof.
  intros H. cbn [run_timers]. unfold bind at 1, gets. rewrite H.
  unfold bind at 1, clearTimeout at 1, modify at 1.
  unfold bind, fire, exec, report, clearTimeout, modify. cbn [snd].
  by destruct (run_callback _ _) as [[[]|?] ?].
Qed.

(** What firing a timer does to the timers and to the clock, for the
    callbacks that do not clear timers themselves. *)
Lemma removeChild_frame id w :
  let w' := exec (report (removeChild id)) w in
  elems w' = elems w /\ timers w' = timers w /\ now w' = now w /\ cartCount w' = cartCount w.
Proof.
  unfold exec, report, removeChild. run_M. by destruct (bool_decide _).
Qed.

Lemma fire_timers t w :
  (forall h, tm_callback t ≠ CbLater h) ->
  timers (fire t w) = filter (λ u, Some (tm_id u) ≠ Some (tm_id t)) (timers w) /\
  now (fire t w) = now w.
Proof.
  intros H. unfold fire. destruct (tm_callback t) as [b s|a|h|]; [ | | by destruct (H h) | ].
  - by cbn.
  - cbn [run_callback].
    destruct (removeChild_frame a (exec (clearTimeout (Some (tm_id t))) w)) as (_ & -> & -> & _).
    by cbn.
  - by cbn.
Qed.

(** A transient label: an announcement is due for removal after 1000 ms and
    a button is due to get its text [orig] back after [D] ms.  Until then
    the elements stay as they are; from then on the button shows [orig]
    again, without its background colour, and the cart counter is as it
    was. *)
Lemma transient_label id1 id2 a b orig D dt w :
  timers w = [mkTimer id1 (now w + 1000) (CbRemoveAnnouncement a);
              mkTimer id2 (now w + D) (CbResetButton b orig)] ->
  id1 ≠ id2 -> (1000 < D)%nat ->
  let w' := exec (advance dt) w in
  cartCount w' = cartCount w /\
  ((dt < D)%nat -> elems w' = elems w) /\
  ((D <= dt)%nat ->
   textContent (getEl b w') = orig /\ style (getEl b w') !! "backgroundColor" = None).
Proof.
  intros Ht Hid HD w'. unfold w', exec. rewrite advance_unfold, Ht. cbn [length].
  set (T1 := mkTimer id1 (now w + 1000) (CbRemoveAnnouncement a)) in *.
  set (T2 := mkTimer id2 (now w + D) (CbResetButton b orig)) in *.
  set (w0 := set_now (now w + dt)%nat w).
  assert (Ht0 : timers w0 = [T1; T2]) by exact Ht.
  assert (Hn0 : now w0 = (now w + dt)%nat) by reflexivity.
  assert (He0 : elems w0 = elems w) by reflexivity.
  assert (Hc0 : cartCount w0 = cartCount w) by reflexivity.
  clearbody w0.
  destruct (decide (dt < 1000)%nat) as [Hlt | Hge].
  { (* nothing is due *)
    rewrite run_timers_idle.
    - cbn. split; [done | split; [done | lia]].
    - unfold next_due. rewrite Ht0, Hn0.
      rewrite filter_cons_False by (cbn; lia).
      rewrite filter_cons_False by (cbn; lia). done. }
  (* the announcement goes first *)
  assert (Hd1 : next_due w0 = Some T1).
  { unfold next_due. rewrite Ht0, Hn0. rewrite filter_cons_True by (cbn; lia).
    destruct (decide (D <= dt)%nat).
    - rewrite filter_cons_True by (cbn; lia). rewrite filter_nil. cbn [earliest tm_due].
      change (tm_due T2) with (now w + D)%nat. change (tm_due T1) with (now w + 1000)%nat.
      destruct (Nat.ltb_spec (now w + D) (now w + 1000)); [lia | done].
    - rewrite filter_cons_False by (cbn; lia). done. }
  rewrite (run_timers_fire _ _ _ Hd1).
  destruct (fire_timers T1 w0) as [Ht1 Hn1]; [done|].
  rewrite Ht0 in Ht1.
  rewrite filter_cons_False in Ht1 by (cbn; congruence).
  rewrite filter_cons_True in Ht1 by (cbn; congruence).
  rewrite filter_nil in Ht1.
  assert (He1 : elems (fire T1 w0) = elems w /\ cartCount (fire T1 w0) = cartCount w).
  { unfold fire. cbn [tm_callback T1 run_callback].
    destruct (removeChild_frame a (exec (clearTimeout (Some (tm_id T1))) w0)) as (-> & _ & _ & ->).
    by cbn. }
  destruct He1 as [He1 Hc1].
  set (w1 := fire T1 w0) in *. clearbody w1.
  destruct (decide (D <= dt)%nat) as [Hdue | Hnot].
  - assert (Hd2 : next_due w1 = Some T2).
    { unfold next_due. rewrite Ht1, Hn1, Hn0. rewrite filter_cons_True by (cbn; lia). done. }
    rewrite (run_timers_fire _ _ _ Hd2). cbn [run_timers ret snd].
    split; [ | split; [lia | intros _; split]].
    + by rewrite <- Hc1.
    + unfold fire. cbn. run_M. by autorewrite with store.
    + unfold fire. cbn. run_M. autorewrite with store. cbn. apply lookup_delete_eq.
  - rewrite run_timers_idle.
    + cbn. split; [done | split; [done | lia]].
    + unfold next_due. rewrite Ht1, Hn1, Hn0. rewrite filter_cons_False by (cbn; lia). done.
Qed.

(** ** The email pattern *)

Section Pattern.
Import Regex.
Local Open Scope list_scope.










Example isValidEmail_examples :
  isValidEmail "user@example.com" = true /\
  isValidEmail "not-an-email" = false /\
  isValidEmail EmptyString = false /\
  isValidEmail "a@b" = false /\
  isValidEmail "a b@c.d" = false /\
  isValidEmail "a@@b.c" = false /\
  isValidEmail "a@b.c.d" = true.
Proof. evaluate. Qed.

End Pattern.

(** ** The newsletter form *)

Lemma newsletterSubmit_invalid d i w :
  q_emailInput d = Some i ->
  truthy (value (getEl i w)) = false \/ isValidEmail (value (getEl i w)) = false ->
  newsletterSubmit d w =
    (Ok tt, set_activeElement (Some i)
              (announced "Please enter a valid email address" (set_defaultPrevented true w))).
Proof.
  intros Hi H. unfold newsletterSubmit. rewrite Hi. run_M.
  change (getEl i (set_defaultPrevented true w)) with (getEl i w).
  destruct H as [-> | ->]; [done | by rewrite orb_true_r].
Qed.

(** The world after a valid submission. *)
Lemma newsletterSubmit_valid d i b w :
  q_emailInput d = Some i ->
  q_submitBtn d = Some b ->
  truthy (value (getEl i w)) = true ->
  isValidEmail (value (getEl i w)) = true ->
  let w1 := announced "Successfully subscribed to newsletter"
              (updEl i (set_value EmptyString)
                 (updEl b (set_style (style_assign "backgroundColor" "#4CAF50"))
                    (updEl b (set_textContent "Subscribed!") (set_defaultPrevented true w)))) in
  newsletterSubmit d w =
    (Ok tt, set_next_timer (S (next_timer w1))
              (set_timers (timers w1 ++
                 [mkTimer (next_timer w1) (now w1 + 3000) (CbResetButton b (textContent (getEl b w)))])
                 w1)).
Proof.
  intros Hi Hb Ht Hv. unfold newsletterSubmit. rewrite Hi, Hb. run_M.
  change (getEl i (set_defaultPrevented true w)) with (getEl i w).
  by rewrite Ht, Hv.
Qed.


(** ** The cart *)










(** Once a listener of a target has stopped propagation, the listeners of
    the rest of the path do not run. *)
Lemma propagate_stopped rt d type e t path w :
  let on_target := forEach (listeners_on t type w) (fun l => report (run_listener rt d l e)) in
  propagationStopped (exec on_target w) = true ->
  exec (propagate rt d type e (t :: path)) w = exec on_target w.
Proof.
  intros on_target H. cbn [propagate]. unfold gets at 1.
  unfold exec at 1, bind at 1. cbn [fst snd]. fold on_target.
  pose proof (forEach_report_ok (listeners_on t type w) (fun l => run_listener rt d l e) w) as Hok.
  fold on_target in Hok. unfold outcome_of in Hok. unfold exec in *.
  unfold bind at 1. destruct (on_target w) as [[[]|?] w1]; [ | done].
  cbn [fst snd] in *. unfold bind, gets. by rewrite H.
Qed.



(** ** One-shot observers *)

Lemma callback_entry_step o entries :
  match o with
  | Reveal => observerCallback entries
  | LazyBackground => lazyBackgroundCallback entries
  end = forEach entries (entry_step o).
Proof. by destruct o. Qed.


Lemma get_obs_set_obs o o' x w :
  get_obs o (set_obs o' x w) = if decide (o = o') then x else get_obs o w.
Proof. by destruct o, o'. Qed.

(** An entry that intersects is written and its target is dropped; one that
    does not changes nothing. *)
Lemma entry_step_run o n b ts w :
  get_obs o w = Some ts ->
  outcome_of (entry_step o (n, b)) w = Ok tt /\
  let w' := exec (entry_step o (n, b)) w in
  (forall x, times x w' = (times x w + (if b then if decide (eff o n = x) then 1 else 0 else 0))%nat) /\
  (forall o', get_obs o' w' =
              if b then if decide (o' = o) then Some (filter (λ x, x ≠ n) ts) else get_obs o' w
              else get_obs o' w).
Proof.
  intros Hts. destruct b.
  - destruct o; unfold outcome_of, exec, entry_step, record, unobserve; run_M; cbn in Hts |- *;
      rewrite Hts; cbn.
    + split; [done|]. split.
      * intros x. unfold times. cbn. rewrite filter_app, length_app. f_equal.
        rewrite filter_cons, filter_nil. by case_decide.
      * intros []; by case_decide.
    + split; [done|]. split.
      * intros x. unfold times. cbn. rewrite filter_app, length_app. f_equal.
        rewrite filter_cons, filter_nil. by case_decide.
      * intros []; by case_decide.
  - destruct o; (split; [done|]); cbn; (split; [intros x; lia | done]).
Qed.











(** ** Missing capabilities *)




Lemma setupCards_ok cs w :
  Forall (λ c, is_Some (c_productName c)) cs -> outcome_of (forEach cs setupCard) w = Ok tt.
Proof.
  intros H. revert w. induction H as [|c cs [x Hc] _ IH]; intros w; [done|]. cbn [forEach].
  rewrite (outcome_bind _ _ _ tt) by by rewrite setupCard_outcome, Hc.
  apply IH.
Qed.

(** On every page whose product cards all have a name, a runtime without
    intersection observers makes the script throw where it creates the
    observer of the reveal animation. *)
Lemma main_without_intersection_observer rt d w :
  has_IntersectionObserver rt = false ->
  Forall (λ c, is_Some (c_productName c)) (q_productCards d) ->
  outcome_of (main rt d) w = Throw ReferenceError.
Proof.
  intros Hio Hcards. unfold main.
  rewrite (outcome_bind _ _ _ tt) by apply setupNavigation_ok.
  rewrite (outcome_bind _ _ _ tt) by by apply forEach_ok.
  rewrite (outcome_bind _ _ _ (pageYOffset (exec (forEach (q_anchors d)
            (fun anchor => addEventListener (OnNode anchor) "click" (LAnchorClick anchor)))
            (exec (setupNavigation d) w)))) by done.
  rewrite (outcome_bind _ _ _ tt) by done.
  rewrite (outcome_bind _ _ _ tt) by done.
  rewrite (outcome_bind _ _ _ tt) by by apply setupCards_ok.
  rewrite (outcome_bind _ _ _ tt) by done.
  rewrite (outcome_bind _ _ _ tt) by by destruct (q_newsletterForm d).
  apply outcome_bind_throw. unfold outcome_of, new_IntersectionObserver. by rewrite Hio.
Qed.

(** The observer for the reveal animation is created without the feature
    detection that guards the lazy backgrounds: without intersection
    observers the script throws on line 290 and what follows is not set
    up. *)
Lemma reveal_observer_unguarded :
  let w := exec (main no_intersection_observer example_document) example_page in
  outcome_of (main no_intersection_observer example_document) example_page
    = Throw ReferenceError /\
  observer w = None /\
  listeners_on OnDocument "keydown" w = [].
Proof. evaluate. Qed.

(** ** The properties at work on the example page *)

Lemma menu_attribute_class_agree_witness :
  Forall (fun r => r.1 = Ok tt /\ menu_consistent 1%nat 2%nat r.2)
    (menu_trace 1%nat 2%nat
       [ ToggleClick;
         DocumentClick (click_on [OnNode 30%nat; OnDocument; OnWindow]);
         ToggleClick;
         DocumentKeydown (key_on [OnNode 3%nat; OnNode 2%nat; OnDocument; OnWindow] "Escape" false);
         ToggleClick;
         LinkClick ]
       example_page).
Proof.
  apply menu_attribute_class_agree.
  vm_compute. split; [discriminate | intros H; inversion H].
Defined.

Lemma escape_dereferences_null_toggle_witness :
  let d := without_toggle example_document in
  let w1 := exec (main full_runtime d) example_page in
  let w := exec (classList_add 2%nat "active") w1 in
  let e := key_on [OnDocument; OnWindow] "Escape" false in
  escapeKeydown None (Some 2%nat) e w =
    (Throw TypeError, updEl 2%nat (set_classList (cl_remove "active")) w) /\
  (OnDocument, "keydown", LEscape None (Some 2%nat)) ∈ listeners w1 /\
  no_click_path w1.
Proof.
  cbv zeta.
  destruct (escape_dereferences_null_toggle full_runtime (without_toggle example_document)
              2%nat (key_on [OnDocument; OnWindow] "Escape" false) example_page
              (exec (main full_runtime (without_toggle example_document)) example_page)
              (exec (classList_add 2%nat "active")
                 (exec (main full_runtime (without_toggle example_document)) example_page)))
    as (H1 & H2 & H3).
  - reflexivity.
  - reflexivity.
  - reflexivity.
  - vm_compute. apply list_elem_of_here.
  - split; [exact H1|]. split.
    + apply H2. vm_compute. reflexivity.
    + apply H3. constructor.
Defined.

Lemma focus_trap_wraps_witness :
  let d := example_document in
  let w1 := exec (main full_runtime d) example_page in
  let w := exec (let* _ := toggleClick 1%nat 2%nat in focus 4%nat) w1 in
  let e := key_on [OnNode 4%nat; OnNode 2%nat; OnDocument; OnWindow] "Tab" false in
  run_listener full_runtime (without_header d) (LFocusTrap 2%nat (Some 3%nat) (Some 4%nat)) e w =
    (Ok tt, set_activeElement (Some 3%nat) (set_defaultPrevented true w)).
Proof.
  cbv zeta.
  destruct (focus_trap_wraps full_runtime example_document (without_header example_document)
              2%nat 3%nat 4%nat
              (key_on [OnNode 4%nat; OnNode 2%nat; OnDocument; OnWindow] "Tab" false)
              example_page (exec (main full_runtime example_document) example_page)
              (exec (let* _ := toggleClick 1%nat 2%nat in focus 4%nat)
                 (exec (main full_runtime example_document) example_page)))
    as (_ & H & _ & _).
  - reflexivity.
  - reflexivity.
  - reflexivity.
  - vm_compute. reflexivity.
  - vm_compute. apply list_elem_of_here.
  - reflexivity.
  - apply H; reflexivity.
Defined.




(** ** What is written stays written

    Nothing in the callbacks takes the visible styling or the [loaded] class
    away again, whatever entries they are called with (also entries that
    name a target twice, or a target that is no longer observed): an
    element that has become visible stays visible. *)

Lemma style_assign_lookup p v q s :
  truthy v = true ->
  style_assign p v s !! q = if decide (p = q) then Some v else s !! q.
Proof. intros H. unfold style_assign. rewrite H. apply lookup_insert. Qed.

Lemma revealed_setStyle_visible n m w :
  revealed n w ->
  revealed n (updEl m (set_style (style_assign "transform" "translateY(0)"))
                (updEl m (set_style (style_assign "opacity" "1")) w)).
Proof.
  intros [Ho Ht]. unfold revealed. destruct (decide (m = n)) as [-> | Hne].
  - rewrite !getEl_updEl_eq. cbn [style set_style].
    rewrite !style_assign_lookup by done. repeat case_decide; done.
  - by rewrite !getEl_updEl_ne.
Qed.

Lemma observerCallback_keeps_revealed entries n :
  preserves (revealed n) (observerCallback entries).
Proof.
  apply preserves_forEach. intros [m b] w H. destruct b; [ | exact H].
  pose proof (revealed_setStyle_visible n m w H) as H'.
  unfold exec, record, unobserve. run_M. cbn. by destruct (observer w).
Qed.

Lemma lazyBackgroundCallback_keeps_loaded entries n :
  preserves (loaded n) (lazyBackgroundCallback entries).
Proof.
  apply preserves_forEach. intros [m b] w H. destruct b; [ | exact H].
  assert (H' : loaded n (updEl m (set_classList (cl_add "loaded")) w)).
  { unfold loaded in *. rewrite getEl_updEl. case_decide; [subst | done].
    cbn. unfold cl_add. destruct (cl_contains _ _); [done | set_solver]. }
  unfold exec, record, unobserve. run_M. cbn. by destruct (lazyBackgroundObserver w).
Qed.

(** * Further properties of the script *)

(** ** The menu: scroll lock, Escape, clicks outside *)

Lemma overflow_assigned v w :
  style (getEl body (updEl body (set_style (style_assign "overflow" v)) w)) !! "overflow" =
    if truthy v then Some v else None.
Proof.
  rewrite getEl_updEl_eq. cbn [style set_style]. unfold style_assign.
  destruct (truthy v); [apply lookup_insert_eq | apply lookup_delete_eq].
Qed.

Lemma closed_menu_closed t m w :
  menu_closed t m
    (updEl body (set_style (style_assign "overflow" EmptyString))
       (updEl t (set_attributes (<["aria-expanded" := "false"]>))
          (updEl m (set_classList (cl_remove "active")) w))).
Proof.
  unfold menu_closed, aria_expanded. rewrite overflow_assigned.
  autorewrite with store. cbn [attributes classList set_attributes set_classList].
  rewrite lookup_insert_eq. split; [apply cl_remove_not_in | done].
Qed.

Lemma menu_closed_lock t m w : menu_closed t m w -> lock_consistent m w.
Proof.
  intros (Hc & _ & Ho). unfold lock_consistent, scroll_locked. rewrite Ho. split; [done|].
  intros H. by destruct Hc.
Qed.

Lemma menu_handler_lock t m op w :
  lock_consistent m w -> lock_consistent m (exec (menu_handler t m op) w).
Proof.
  intros H. destruct op as [| |e|e]; cbn [menu_handler].
  - unfold exec, toggleClick. run_M. unfold lock_consistent, scroll_locked.
    rewrite overflow_assigned. autorewrite with store.
    destruct (cl_contains _ _) eqn:E; cbn.
    + apply cl_contains_spec in E. split; [by intros _ | done].
    + split; [done|]. intros Hin. apply cl_contains_spec in Hin.
      cbn [classList set_classList] in E. congruence.
  - apply (menu_closed_lock t), closed_menu_closed.
  - unfold exec, outsideClick. run_M.
    destruct (_ && _ && _); [apply (menu_closed_lock t), closed_menu_closed | exact H].
  - unfold exec, escapeKeydown. run_M. case_bool_decide; [ | exact H].
    destruct (cl_contains _ _); [ | exact H].
    apply (menu_closed_lock t). cbn. apply closed_menu_closed.
Qed.

(** X1: the scroll lock follows the menu.  On a page where the body is
    locked ([overflow: hidden]) exactly when the menu has the [active]
    class, the same holds after every handler of every sequence of menu
    operations. *)
Theorem menu_scroll_lock (t m : node) (ops : list menu_op) (w : world) :
  lock_consistent m w ->
  Forall (fun r => lock_consistent m r.2) (menu_trace t m ops w).
Proof.
  revert w. induction ops as [|op ops IH]; intros w H; cbn [menu_trace]; constructor.
  - by apply menu_handler_lock.
  - by apply IH, menu_handler_lock.
Qed.

Lemma menu_scroll_lock_witness :
  Forall (fun r => lock_consistent 2%nat r.2)
    (menu_trace 1%nat 2%nat
       [ToggleClick; DocumentClick (click_on [OnNode 2%nat; OnDocument; OnWindow]); LinkClick]
       example_page).
Proof.
  apply menu_scroll_lock. vm_compute. split; [discriminate | intros H; inversion H].
Defined.

(** X2: Escape with the menu open closes it, lifts the scroll lock, sets
    [aria-expanded] to ["false"] and gives the focus to the toggle; any
    other key, and Escape with the menu closed, change nothing; without a
    menu the listener does nothing at all. *)
Theorem escape_closes_and_refocuses (t m : node) (o : option node) (e : event) (w : world) :
  (ev_key e = "Escape" -> "active" ∈ classList (getEl m w) ->
   outcome_of (escapeKeydown (Some t) (Some m) e) w = Ok tt /\
   menu_closed t m (exec (escapeKeydown (Some t) (Some m) e) w) /\
   activeElement (exec (escapeKeydown (Some t) (Some m) e) w) = Some t) /\
  (ev_key e ≠ "Escape" \/ "active" ∉ classList (getEl m w) ->
   escapeKeydown (Some t) (Some m) e w = (Ok tt, w)) /\
  escapeKeydown o None e w = (Ok tt, w).
Proof.
  split; [ | split].
  - intros Hk Ha. apply cl_contains_spec in Ha.
    unfold outcome_of, exec, escapeKeydown. run_M.
    rewrite (bool_decide_eq_true_2 _ Hk), Ha. cbn.
    split; [done|]. split; [apply closed_menu_closed | done].
  - intros H. unfold escapeKeydown. run_M. case_bool_decide as Hk; [ | done].
    destruct H as [H | H]; [done|].
    destruct (cl_contains _ _) eqn:E; [ | done]. apply cl_contains_spec in E. done.
  - unfold escapeKeydown. by case_bool_decide.
Qed.

Lemma escape_closes_and_refocuses_witness :
  let w := exec (toggleClick 1%nat 2%nat) example_page in
  let e := key_on [OnDocument; OnWindow] "Escape" false in
  activeElement (exec (escapeKeydown (Some 1%nat) (Some 2%nat) e) w) = Some 1%nat /\
  escapeKeydown (Some 1%nat) (Some 2%nat) e example_page = (Ok tt, example_page).
Proof.
  cbv zeta.
  destruct (escape_closes_and_refocuses 1%nat 2%nat None
              (key_on [OnDocument; OnWindow] "Escape" false)
              (exec (toggleClick 1%nat 2%nat) example_page)) as (H1 & _ & _).
  destruct (escape_closes_and_refocuses 1%nat 2%nat None
              (key_on [OnDocument; OnWindow] "Escape" false) example_page) as (_ & H2 & _).
  split.
  - apply H1; [reflexivity | vm_compute; apply list_elem_of_here].
  - apply H2. right. vm_compute. intros H. inversion H.
Defined.

(** X3: a click whose target is inside the menu or inside the toggle, and
    any click while the menu is closed, leave the page as it is for the
    listener on the document; a click anywhere else while the menu is open
    closes the menu and leaves the focus where it was. *)
Theorem outside_click_closes (t m : node) (e : event) (w : world) :
  ("active" ∉ classList (getEl m w) \/ OnNode m ∈ ev_path e \/ OnNode t ∈ ev_path e ->
   outsideClick t m e w = (Ok tt, w)) /\
  ("active" ∈ classList (getEl m w) -> OnNode m ∉ ev_path e -> OnNode t ∉ ev_path e ->
   outcome_of (outsideClick t m e) w = Ok tt /\
   menu_closed t m (exec (outsideClick t m e) w) /\
   activeElement (exec (outsideClick t m e) w) = activeElement w).
Proof.
  split.
  - intros H. unfold outsideClick, contains. run_M.
    destruct (cl_contains _ _) eqn:E; [ | done]. apply cl_contains_spec in E.
    destruct H as [H | [H | H]]; [done | | ].
    + by rewrite (bool_decide_eq_true_2 _ H).
    + rewrite (bool_decide_eq_true_2 _ H). cbn. by rewrite andb_false_r.
  - intros Ha Hm Ht. apply cl_contains_spec in Ha.
    unfold outcome_of, exec, outsideClick, contains. run_M.
    rewrite Ha, (bool_decide_eq_false_2 _ Hm), (bool_decide_eq_false_2 _ Ht). cbn.
    split; [done|]. split; [apply closed_menu_closed | done].
Qed.

Lemma outside_click_closes_witness :
  let w := exec (toggleClick 1%nat 2%nat) example_page in
  outsideClick 1%nat 2%nat (click_on [OnNode 3%nat; OnNode 2%nat; OnDocument; OnWindow]) w
    = (Ok tt, w) /\
  menu_closed 1%nat 2%nat
    (exec (outsideClick 1%nat 2%nat (click_on [OnNode 30%nat; OnDocument; OnWindow])) w).
Proof.
  cbv zeta. split.
  - apply outside_click_closes. right. left. vm_compute.
    apply list_elem_of_further, list_elem_of_here.
  - apply outside_click_closes.
    + vm_compute. apply list_elem_of_here.
    + intros H. by repeat (apply elem_of_cons in H as [H | H]; [discriminate|]);
        apply elem_of_nil in H.
    + intros H. by repeat (apply elem_of_cons in H as [H | H]; [discriminate|]);
        apply elem_of_nil in H.
Defined.

(** ** The focus trap at its edges *)

Lemma head_last_None {A} (l : list A) : head l = None <-> last l = None.
Proof. rewrite head_None, last_None. done. Qed.

(** X4: whatever the focusable descendants of the menu were at setup, the
    focus trap never throws.  It changes nothing while the menu is closed,
    on any key other than Tab, and when the menu had no focusable
    descendant; when it had exactly one, Tab and Shift+Tab on that element
    keep the focus on it and prevent the default action. *)
Theorem focus_trap_total (m : node) (fs : list node) (e : event) (w : world) :
  let trap := focusTrapKeydown m (head fs) (last fs) e in
  outcome_of trap w = Ok tt /\
  ("active" ∉ classList (getEl m w) \/ ev_key e ≠ "Tab" \/ fs = [] -> trap w = (Ok tt, w)) /\
  (forall x, fs = [x] -> "active" ∈ classList (getEl m w) -> ev_key e = "Tab" ->
             activeElement w = Some x ->
             trap w = (Ok tt, set_activeElement (Some x) (set_defaultPrevented true w))).
Proof.
  cbv zeta. split; [ | split].
  - unfold outcome_of, focusTrapKeydown. run_M.
    destruct (cl_contains _ _); cbn; [ | done]. case_bool_decide; [ | done].
    destruct (head fs) as [f|] eqn:Hf, (last fs) as [l|] eqn:Hl.
    + destruct (ev_shiftKey e), (same_element _ _); done.
    + apply head_last_None in Hl. congruence.
    + apply head_last_None in Hf. congruence.
    + destruct (ev_shiftKey e), (activeElement w); done.
  - intros H. unfold focusTrapKeydown. run_M.
    destruct (cl_contains _ _) eqn:E; cbn; [ | done]. apply cl_contains_spec in E.
    case_bool_decide as Hk; [ | done].
    destruct H as [H | [H | ->]]; [done | done | ].
    cbn. destruct (ev_shiftKey e), (activeElement w); done.
  - intros x -> Ha Hk Hfoc. apply cl_contains_spec in Ha.
    unfold focusTrapKeydown. run_M. rewrite Ha, (bool_decide_eq_true_2 _ Hk). cbn.
    rewrite Hfoc. cbn. rewrite bool_decide_eq_true_2 by done. by destruct (ev_shiftKey e).
Qed.

(** ** The easing curve between its ends *)

Section EaseRange.
Open Scope Q_scope.









End EaseRange.

(** ** The debounced scroll listener *)

Lemma advance_idle g w :
  next_due (set_now (now w + g)%nat w) = None ->
  advance g w = (Ok tt, set_now (now w + g)%nat w).
Proof. intros H. rewrite advance_unfold. by apply run_timers_idle. Qed.

(** A call of the debounced function cancels the pending call, if there is
    one, and leaves one call pending. *)
Lemma user_scroll_pending h y w0 w :
  (timers w = [] /\ lastScrollY w = lastScrollY w0 /\ elems w = elems w0 /\
   uncaught w = uncaught w0) \/
  (exists due, timers w = [mkTimer (next_timer w - 1) due (CbLater h)] /\
               timeout w = Some (next_timer w - 1)%nat /\
               lastScrollY w = lastScrollY w0 /\ elems w = elems w0 /\
               uncaught w = uncaught w0) ->
  let w' := exec (user_scroll h y) w in
  debounce_pending h w0 w' /\ pageYOffset w' = y /\ now w' = now w.
Proof.
  intros H. unfold exec, user_scroll, handleScroll, clearTimeout, setTimeout. run_M.
  cbn [timers set_pageYOffset timeout next_timer now].
  assert (Hf : filter (λ t, Some (tm_id t) ≠ timeout w) (timers w) = []).
  { destruct H as [(-> & _) | (due & -> & -> & _)]; [done|].
    by rewrite filter_cons_False by (cbn; intros E; by apply E). }
  rewrite Hf. unfold debounce_pending. cbn. rewrite Nat.sub_0_r.
  destruct H as [(_ & H1 & H2 & H3) | (due & _ & _ & H1 & H2 & H3)];
    repeat split; try done; lia.
Qed.

Lemma debounce_pending_wait h g w0 w :
  debounce_pending h w0 w -> (g < 10)%nat ->
  advance g w = (Ok tt, set_now (now w + g)%nat w).
Proof.
  intros (Ht & _) Hg. apply advance_idle. unfold next_due. cbn [timers now set_now].
  rewrite Ht. by rewrite filter_cons_False by (cbn; lia).
Qed.

Lemma scroll_step_pending h g y w0 w :
  debounce_pending h w0 w -> (g < 10)%nat ->
  let w' := exec (let* _ := advance g in user_scroll h y) w in
  outcome_of (let* _ := advance g in user_scroll h y) w = Ok tt /\
  debounce_pending h w0 w' /\ pageYOffset w' = y.
Proof.
  intros Hp Hg. pose proof (debounce_pending_wait h g w0 w Hp Hg) as Hw.
  unfold exec, outcome_of, bind. rewrite Hw.
  destruct Hp as (Ht & Hto & Hn & Hl & He & Hu).
  destruct (user_scroll_pending h y w0 (set_now (now w + g)%nat w)) as (H1 & H2 & _).
  { right. exists (now w + 10)%nat. by repeat split. }
  split; [done|]. by split.
Qed.

Lemma last_cons_default {A} (l : list A) a d : List.last (a :: l) d = List.last l a.
Proof.
  revert a d. induction l as [|b l IH]; intros a d; [done|].
  change (List.last (a :: b :: l) d) with (List.last (b :: l) d). by rewrite !IH.
Qed.

Lemma scroll_burst_pending h y0 rest w :
  timers w = [] -> Forall (λ s, (s.1 < 10)%nat) rest ->
  let w' := exec (scroll_burst h y0 rest) w in
  outcome_of (scroll_burst h y0 rest) w = Ok tt /\
  debounce_pending h w w' /\ pageYOffset w' = last_offset y0 rest.
Proof.
  intros Ht Hrest. unfold scroll_burst.
  destruct (user_scroll_pending h y0 w w) as (H1 & H2 & _); [left; by repeat split|].
  assert (Hok : outcome_of (user_scroll h y0) w = Ok tt) by done.
  rewrite (outcome_bind _ _ _ tt) by exact Hok. rewrite (exec_bind _ _ _ tt) by exact Hok.
  unfold last_offset. clear Hok. revert H1 H2. generalize (exec (user_scroll h y0) w).
  revert y0.
  induction Hrest as [|[g y] rest Hg _ IH]; intros y0 w1 H1 H2; [done|].
  cbn [forEach map snd fst].
  destruct (scroll_step_pending h g y w w1 H1 Hg) as (Hok1 & H1' & H2').
  cbn [fst snd] in *.
  rewrite (outcome_bind (let* _ := advance g in user_scroll h y) _ w1 tt Hok1).
  rewrite (exec_bind (let* _ := advance g in user_scroll h y) _ w1 tt Hok1).
  destruct (IH y _ H1' H2') as (R1 & R2 & R3). split; [done|]. split; [done|].
  rewrite R3. symmetry. apply last_cons_default.
Qed.

(** X6: the debounce coalesces a burst.  With no timer pending, let the
    user scroll any number of times, each scroll less than 10 ms after the
    one before.  During the burst the scroll function does not run: one
    timer is pending and the header and the remembered offset are as they
    were.  Once 10 ms pass without a scroll, the function runs exactly once,
    without an error: it remembers the offset at which the burst ended and
    hides the header if that offset is beyond 100 and beyond the offset
    remembered before the burst, and shows it otherwise. *)
Theorem debounce_coalesces (hd : node) (y0 : Q) (rest : list (nat * Q)) (dt : nat)
    (w : world) :
  timers w = [] ->
  Forall (λ s, (s.1 < 10)%nat) rest ->
  (10 <= dt)%nat ->
  let w1 := exec (scroll_burst (Some hd) y0 rest) w in
  let w2 := exec (advance dt) w1 in
  let y := last_offset y0 rest in
  debounce_pending (Some hd) w w1 /\
  timers w2 = [] /\
  uncaught w2 = uncaught w /\
  lastScrollY w2 = y /\
  style (getEl hd w2) !! "transform" =
    Some (if Qltb (lastScrollY w) y && Qltb 100 y then "translateY(-100%)" else "translateY(0)").
Proof.
  intros Ht Hrest Hdt w1 w2 y.
  destruct (scroll_burst_pending (Some hd) y0 rest w Ht Hrest) as (_ & Hp & Hy).
  fold w1 in Hp, Hy. fold y in Hy. split; [exact Hp|].
  destruct Hp as (Ht1 & Hto & Hn & Hl & He & Hu).
  unfold w2, exec. rewrite advance_unfold, Ht1. cbn [length].
  set (T := mkTimer (next_timer w1 - 1) (now w1 + 10) (CbLater (Some hd))) in *.
  assert (Hd : next_due (set_now (now w1 + dt)%nat w1) = Some T).
  { unfold next_due. cbn [timers now set_now]. rewrite Ht1.
    by rewrite filter_cons_True by (cbn; lia). }
  rewrite (run_timers_fire _ _ _ Hd). cbn [run_timers ret snd].
  unfold fire, exec, report, clearTimeout. cbn [tm_callback tm_id T run_callback].
  unfold later, scrollFunc, clearTimeout. run_M.
  cbn [timers set_now set_timers timeout pageYOffset lastScrollY].
  rewrite Ht1, Hto, Hy, Hl.
  rewrite filter_cons_False by (cbn; intros E; by apply E). rewrite filter_nil.
  destruct (Qltb (lastScrollY w) y && Qltb 100 y); run_M.
  - repeat split; [done..|].
    unfold getEl at 1. cbn. rewrite lookup_insert_eq. cbn. apply lookup_insert_eq.
  - repeat split; [done..|].
    unfold getEl at 1. cbn. rewrite lookup_insert_eq. cbn. apply lookup_insert_eq.
Qed.

Lemma debounce_coalesces_witness :
  let w1 := exec (scroll_burst (Some 6%nat) 40%Q [(3%nat, 120%Q); (9%nat, 300%Q); (2%nat, 250%Q)]) example_page in
  let w2 := exec (advance 10) w1 in
  lastScrollY w2 = 250%Q /\
  style (getEl 6%nat w2) !! "transform" = Some "translateY(-100%)".
Proof.
  cbv zeta.
  destruct (debounce_coalesces 6%nat 40%Q [(3%nat, 120%Q); (9%nat, 300%Q); (2%nat, 250%Q)] 10%nat example_page)
    as (_ & _ & _ & H1 & H2).
  - reflexivity.
  - repeat constructor; cbn; lia.
  - lia.
  - split; [exact H1 | exact H2].
Defined.

(** ** Clicks on anchors *)

(** X7: the links that the anchor listener leaves alone.  A link to ["#"]
    or to ["#cart"], and a link whose target does not exist, leave the page
    as it is: the default action is not prevented, nothing scrolls, the
    address and the focus stay.  When the value of [href] is not a valid
    selector, the exception of [querySelector] leaves the listener, again
    with the page as it is. *)
Theorem anchor_click_ignored (rt : env) (d : document) (a : node) (w : world) :
  let href := attributes (getEl a w) !! "href" in
  (href = Some "#" \/ href = Some "#cart" -> anchorClick rt d a w = (Ok tt, w)) /\
  (q_selector d (default "null" href) = Ok None -> anchorClick rt d a w = (Ok tt, w)) /\
  (forall err, href ≠ Some "#" -> href ≠ Some "#cart" ->
               q_selector d (default "null" href) = Throw err ->
               anchorClick rt d a w = (Throw err, w)).
Proof.
  cbv zeta. unfold anchorClick. run_M. split; [ | split].
  - intros [-> | ->]; [done|]. by rewrite orb_true_r.
  - intros H. destruct (_ || _); [done|]. cbn. by rewrite H.
  - intros err H1 H2 H. rewrite !bool_decide_eq_false_2 by done. cbn. by rewrite H.
Qed.

Lemma anchor_click_ignored_witness :
  anchorClick full_runtime example_document 4%nat example_page = (Ok tt, example_page) /\
  anchorClick full_runtime example_document 5%nat example_page = (Ok tt, example_page) /\
  anchorClick full_runtime example_document 99%nat example_page = (Ok tt, example_page).
Proof.
  destruct (anchor_click_ignored full_runtime example_document 4%nat example_page) as (H4 & _).
  destruct (anchor_click_ignored full_runtime example_document 5%nat example_page) as (H5 & _).
  destruct (anchor_click_ignored full_runtime example_document 99%nat example_page)
    as (_ & H99 & _).
  split; [apply H4; by left | split; [apply H5; by right | apply H99; reflexivity]].
Defined.



(** ** The life of an announcement *)

Lemma filter_fresh_child (cs : list (nat * element)) id e :
  Forall (λ c, (c.1 < id)%nat) cs ->
  filter (λ c, c.1 ≠ id) (cs ++ [(id, e)])%list = cs.
Proof.
  intros H. rewrite filter_app, filter_cons_False by (cbn; intros E; by apply E).
  rewrite filter_nil, app_nil_r. induction H as [|c cs Hc _ IH]; [done|].
  rewrite filter_cons_True by lia. by rewrite IH.
Qed.

(** X9: an announcement lives for 1000 ms.  With no timer pending, the
    message that [announceToScreenReader] appends to the body as a polite
    status region is there for less than 1000 ms and gone from 1000 ms on,
    the other children of the body being as they were; its removal does not
    throw. *)
Theorem announcement_lifecycle (message : string) (dt : nat) (w : world) :
  timers w = [] ->
  children_fresh w ->
  let w1 := exec (announceToScreenReader message) w in
  let w2 := exec (advance dt) w1 in
  body_children w1 = (body_children w ++ [(next_child w, live_region message)])%list /\
  attributes (live_region message) !! "role" = Some "status" /\
  attributes (live_region message) !! "aria-live" = Some "polite" /\
  textContent (live_region message) = message /\
  ((dt < 1000)%nat -> body_children w2 = body_children w1) /\
  ((1000 <= dt)%nat -> body_children w2 = body_children w /\ timers w2 = []) /\
  uncaught w2 = uncaught w /\
  children_fresh w2.
Proof.
  intros Ht Hf w1 w2.
  assert (E1 : w1 = announced message w) by reflexivity.
  split; [by rewrite E1|]. split; [done|]. split; [done|]. split; [done|].
  assert (Hfresh1 : children_fresh w1).
  { rewrite E1. unfold children_fresh. cbn. apply Forall_app. split.
    - eapply Forall_impl; [exact Hf|]. cbn. intros c Hc. lia.
    - repeat constructor. }
  unfold w2, exec. rewrite advance_unfold.
  assert (Ht1 : timers w1 = [mkTimer (next_timer w) (now w + 1000) (CbRemoveAnnouncement (next_child w))]).
  { rewrite E1. cbn. by rewrite Ht. }
  rewrite Ht1. cbn [length].
  destruct (decide (dt < 1000)%nat) as [Hlt | Hge].
  - rewrite run_timers_idle.
    + cbn [snd]. split; [done|]. split; [lia|]. split; [by rewrite E1 | exact Hfresh1].
    + unfold next_due. cbn [timers now set_now]. rewrite Ht1.
      rewrite filter_cons_False; [done|]. rewrite E1. cbn. lia.
  - set (T := mkTimer (next_timer w) (now w + 1000) (CbRemoveAnnouncement (next_child w))) in *.
    assert (Hd : next_due (set_now (now w1 + dt)%nat w1) = Some T).
    { unfold next_due. cbn [timers now set_now]. rewrite Ht1.
      rewrite filter_cons_True; [done|]. rewrite E1. cbn. lia. }
    rewrite (run_timers_fire _ _ _ Hd). cbn [run_timers ret snd].
    unfold fire, exec, report, clearTimeout. cbn [tm_callback tm_id T run_callback].
    unfold removeChild. run_M. cbn [body_children set_timers set_now timers].
    rewrite Ht1, E1. cbn [body_children announced set_next_timer set_timers set_next_child
                         set_body_children].
    rewrite bool_decide_eq_true_2.
    2:{ rewrite fmap_app. cbn. apply elem_of_app. right. apply list_elem_of_here. }
    run_M. rewrite (filter_fresh_child _ _ _ Hf).
    rewrite filter_cons_False by (cbn; intros E; by apply E). rewrite filter_nil.
    split; [lia|]. split; [done|]. split; [done|].
    unfold children_fresh. cbn. eapply Forall_impl; [exact Hf|]. cbn. intros c Hc. lia.
Qed.

Lemma announcement_lifecycle_witness :
  let w1 := exec (announceToScreenReader "Hello") example_page in
  body_children (exec (advance 999) w1) = [(0%nat, live_region "Hello")] /\
  body_children (exec (advance 1000) w1) = [].
Proof.
  cbv zeta.
  destruct (announcement_lifecycle "Hello" 999 example_page) as (H0 & _ & _ & _ & H1 & _);
    [reflexivity | constructor | ].
  destruct (announcement_lifecycle "Hello" 1000 example_page) as (_ & _ & _ & _ & _ & H2 & _);
    [reflexivity | constructor | ].
  split.
  - rewrite H1 by lia. exact H0.
  - apply H2. lia.
Defined.

(** ** The newsletter form on every input *)

Lemma isValidEmail_truthy v : isValidEmail v = true -> truthy v = true.
Proof.
  intros H. unfold truthy. destruct (String.eqb_spec v EmptyString) as [-> | _]; [ | done].
  vm_compute in H. discriminate.
Qed.

(** X10: what decides a submission is the pattern alone.  On a form with
    its email field [i] and its button [b]: when the value does not match,
    the handler announces the error and focuses the field, changes no
    element of the page and sets no timer for the button; when it matches,
    it empties the field, shows ["Subscribed!"] on a green button,
    announces the success and sets the timer that restores the text of the
    button 3000 ms later.  Either way the default submission is
    prevented. *)
Theorem newsletter_validation (d : document) (i b : node) (w : world) :
  q_emailInput d = Some i ->
  q_submitBtn d = Some b ->
  let w' := exec (newsletterSubmit d) w in
  outcome_of (newsletterSubmit d) w = Ok tt /\
  defaultPrevented w' = true /\
  (isValidEmail (value (getEl i w)) = false ->
   announcements w' = (announcements w ++ ["Please enter a valid email address"])%list /\
   activeElement w' = Some i /\
   elems w' = elems w /\
   timers w' =
     (timers w ++ [mkTimer (next_timer w) (now w + 1000)
                     (CbRemoveAnnouncement (next_child w))])%list) /\
  (isValidEmail (value (getEl i w)) = true ->
   announcements w' = (announcements w ++ ["Successfully subscribed to newsletter"])%list /\
   activeElement w' = activeElement w /\
   value (getEl i w') = EmptyString /\
   textContent (getEl b w') = "Subscribed!" /\
   style (getEl b w') !! "backgroundColor" = Some "#4CAF50" /\
   timers w' =
     (timers w ++ [mkTimer (next_timer w) (now w + 1000) (CbRemoveAnnouncement (next_child w));
                   mkTimer (S (next_timer w)) (now w + 3000)
                     (CbResetButton b (textContent (getEl b w)))])%list).
Proof.
  intros Hi Hb w'. destruct (isValidEmail (value (getEl i w))) eqn:Hv.
  - pose proof (newsletterSubmit_valid d i b w Hi Hb (isValidEmail_truthy _ Hv) Hv) as Hrun.
    cbv zeta in Hrun. unfold w', outcome_of, exec. rewrite Hrun. cbn [fst snd]. clear Hrun.
    split; [done|]. split; [done|]. split; [done|]. intros _.
    set (w1 := updEl i _ _).
    split; [unfold announcements; cbn; by rewrite map_app|]. split; [done|].
    split; [rewrite (getEl_elems i _ w1) by reflexivity; unfold w1; by autorewrite with store|].
    split; [rewrite (getEl_elems b _ w1) by reflexivity; unfold w1; by autorewrite with store|].
    split.
    + rewrite (getEl_elems b _ w1) by reflexivity. unfold w1.
      rewrite style_value, getEl_updEl_eq. cbn [style set_style]. apply lookup_insert_eq.
    + cbn. by rewrite <- app_assoc.
  - unfold w', outcome_of, exec.
    rewrite (newsletterSubmit_invalid d i w Hi (or_intror Hv)). cbn [fst snd].
    split; [done|]. split; [done|]. split; [ | done]. intros _.
    split; [unfold announcements; cbn; by rewrite map_app|]. done.
Qed.

Lemma newsletter_validation_witness :
  let w := exec (setValue 21%nat "someone at example.com") example_page in
  let w' := exec (newsletterSubmit example_document) w in
  activeElement w' = Some 21%nat /\ elems w' = elems w.
Proof.
  cbv zeta.
  destruct (newsletter_validation example_document 21%nat 22%nat
              (exec (setValue 21%nat "someone at example.com") example_page) eq_refl eq_refl)
    as (_ & _ & H & _).
  destruct H as (_ & H1 & H2 & _); [vm_compute; reflexivity|].
  split; [exact H1 | exact H2].
Defined.

(** X11: a form without its fields.  Without an email field the handler
    throws a [TypeError] right after it has prevented the submission.
    Without a submit button an address that does not match is still
    reported as usual, while one that matches makes the handler throw a
    [TypeError] before it has changed anything: the field keeps its value
    and nothing is announced. *)
Theorem newsletter_missing_fields (d : document) (w : world) :
  (q_emailInput d = None ->
   newsletterSubmit d w = (Throw TypeError, set_defaultPrevented true w)) /\
  (forall i, q_emailInput d = Some i -> q_submitBtn d = None ->
     (isValidEmail (value (getEl i w)) = true ->
      newsletterSubmit d w = (Throw TypeError, set_defaultPrevented true w)) /\
     (isValidEmail (value (getEl i w)) = false ->
      newsletterSubmit d w =
        (Ok tt, set_activeElement (Some i)
                  (announced "Please enter a valid email address"
                     (set_defaultPrevented true w))))).
Proof.
  split.
  - intros Hi. unfold newsletterSubmit. by rewrite Hi.
  - intros i Hi Hb. split; intros Hv.
    + unfold newsletterSubmit. rewrite Hi, Hb. run_M.
      change (getEl i (set_defaultPrevented true w)) with (getEl i w).
      by rewrite (isValidEmail_truthy _ Hv), Hv.
    + apply newsletterSubmit_invalid; [done | by right].
Qed.

(** ** The cart before the script has finished *)

(** X12: a click on an "add to cart" button while the counter is not
    initialised (the script stopped before line 219) throws a
    [ReferenceError] out of [updateCartCount]: the button already shows
    ["Added!"] and the product has been announced, but the cart link is not
    updated and no timer is set to restore the button. *)
Theorem add_to_cart_before_initialisation (d : document) (btn : node) (productName : string)
    (w : world) :
  cartCount w = None ->
  let w' := exec (addToCartClick d btn productName) w in
  outcome_of (addToCartClick d btn productName) w = Throw ReferenceError /\
  textContent (getEl btn w') = "Added!" /\
  announcements w' = (announcements w ++ [(productName ++ " added to cart")%string])%list /\
  cartCount w' = None /\
  (forall l, l ≠ btn -> getEl l w' = getEl l w) /\
  timers w' =
    (timers w ++ [mkTimer (next_timer w) (now w + 1000)
                    (CbRemoveAnnouncement (next_child w))])%list.
Proof.
  intros Hc. unfold outcome_of, exec, addToCartClick. run_M.
  rewrite announceToScreenReader_run. unfold updateCartCount. run_M.
  cbn [cartCount announced set_next_timer set_timers set_next_child set_body_children
       updEl set_elems set_propagationStopped].
  rewrite Hc. cbn [fst snd].
  set (w1 := updEl btn _ (updEl btn _ _)).
  split; [done|].
  split; [rewrite (getEl_elems btn _ w1) by reflexivity; unfold w1;
          by rewrite !getEl_updEl_eq|].
  split; [unfold announcements; cbn; by rewrite map_app|].
  split; [done|]. split; [ | done].
  intros l Hl. rewrite (getEl_elems l _ w1) by reflexivity. unfold w1.
  by rewrite !getEl_updEl_ne.
Qed.

Lemma add_to_cart_before_initialisation_witness :
  let d := with_cards [mkCard (Some 11%nat) (Some 12%nat) (Some 13%nat) 10%nat;
                       mkCard (Some 15%nat) None None 14%nat] example_document in
  let w := exec (main full_runtime d) example_page in
  listeners_on (OnNode 11%nat) "click" w = [LAddToCart 11%nat "Silk bodysuit"] /\
  outcome_of (addToCartClick d 11%nat "Silk bodysuit") w = Throw ReferenceError.
Proof.
  cbv zeta. split; [vm_compute; reflexivity|].
  apply add_to_cart_before_initialisation. vm_compute. reflexivity.
Defined.

(** ** What the observer callbacks do with their entries *)

Lemma entry_step_elements o n b ts w :
  get_obs o w = Some ts ->
  let w' := exec (entry_step o (n, b)) w in
  uncaught w' = uncaught w /\
  timers w' = timers w /\
  (b = true -> written o n w') /\
  (forall m, b = false \/ m ≠ n -> getEl m w' = getEl m w) /\
  (forall m, written o m w -> written o m w').
Proof.
  intros Hts. destruct b.
  2: { assert (E : exec (entry_step o (n, false)) w = w) by by destruct o.
       cbv zeta. rewrite E. split; [done|]. split; [done|]. split; [done|]. by split. }
  destruct o; unfold exec, entry_step, record, unobserve; run_M; cbn in Hts |- *;
    rewrite Hts; cbn [fst snd].
  - set (w1 := updEl n _ (updEl n _ w)).
    assert (Hn : revealed n w1).
    { unfold revealed, w1. rewrite !getEl_updEl_eq. cbn [style set_style].
      rewrite !style_assign_lookup by done. by repeat case_decide. }
    split; [done|]. split; [done|]. split; [done|]. split.
    + intros m [? | Hm]; [done|]. rewrite (getEl_elems m _ w1) by reflexivity.
      unfold w1. by rewrite !getEl_updEl_ne.
    + intros m Hm. by apply (revealed_setStyle_visible m n w).
  - set (w1 := updEl n _ w).
    assert (Hkeep : forall m, loaded m w -> loaded m w1).
    { intros m. unfold loaded, w1. rewrite getEl_updEl. case_decide; [subst | done].
      cbn. unfold cl_add. destruct (cl_contains _ _); [done | set_solver]. }
    split; [done|]. split; [done|]. split; [ | split].
    + intros _. unfold loaded. rewrite (getEl_elems n _ w1) by reflexivity.
      unfold w1. rewrite getEl_updEl_eq. cbn. unfold cl_add.
      destruct (cl_contains _ _) eqn:E; [by apply cl_contains_spec in E | set_solver].
    + intros m [? | Hm]; [done|]. rewrite (getEl_elems m _ w1) by reflexivity.
      unfold w1. by rewrite getEl_updEl_ne.
    + intros m Hm. by apply Hkeep.
Qed.

Lemma filter_all {A} (P : A -> Prop) `{forall x, Decision (P x)} (l : list A) :
  (forall x, P x) -> filter P l = l.
Proof.
  intros HP. induction l as [|a l IH]; [done|]. rewrite filter_cons_True by apply HP.
  by rewrite IH.
Qed.

Lemma filter_all_in {A} (P : A -> Prop) `{forall x, Decision (P x)} (l : list A) :
  (forall x, x ∈ l -> P x) -> filter P l = l.
Proof.
  induction l as [|a l IH]; intros HP; [done|].
  rewrite filter_cons_True by (apply HP; by left).
  rewrite IH; [done|]. intros x Hx. apply HP. by right.
Qed.

Lemma entries_run o es :
  forall w ts,
    get_obs o w = Some ts ->
    outcome_of (forEach es (entry_step o)) w = Ok tt /\
    let w' := exec (forEach es (entry_step o)) w in
    get_obs o w' = Some (filter (λ n, ¬ intersecting es n) ts) /\
    (forall o', o' ≠ o -> get_obs o' w' = get_obs o' w) /\
    (forall n, intersecting es n -> written o n w') /\
    (forall n, ¬ intersecting es n -> getEl n w' = getEl n w) /\
    (forall n, written o n w -> written o n w') /\
    uncaught w' = uncaught w /\
    timers w' = timers w.
Proof.
  unfold intersecting.
  induction es as [|[n b] es IH]; intros w ts Hts.
  - split; [done|]. cbn [forEach]. change (exec (ret tt) w) with w. cbv zeta.
    split; [ | split; [done | split; [ | by repeat split]]].
    + rewrite Hts. f_equal. symmetry. apply filter_all. intros x. apply not_elem_of_nil.
    + intros n Hn. by apply elem_of_nil in Hn.
  - cbn [forEach].
    destruct (entry_step_run o n b ts w Hts) as (Hok & _ & Hobs).
    destruct (entry_step_elements o n b ts w Hts) as (Hu & Htm & Hn & Hfr & Hkeep).
    rewrite (outcome_bind _ _ _ tt), (exec_bind _ _ _ tt) by exact Hok.
    set (w1 := exec (entry_step o (n, b)) w) in *. cbv zeta in Hobs.
    set (ts1 := if b then filter (λ x, x ≠ n) ts else ts).
    assert (Hts1 : get_obs o w1 = Some ts1).
    { rewrite Hobs. unfold ts1. destruct b; [by rewrite decide_True | done]. }
    destruct (IH w1 ts1 Hts1) as (Hok' & Ho & Hother & Hw & Hf & Hk & Hu' & Htm').
    cbv zeta in Ho, Hother, Hw, Hf, Hk, Hu', Htm'.
    split; [exact Hok'|]. cbv zeta.
    split; [ | split; [ | split; [ | split; [ | split; [ | split]]]]].
    + rewrite Ho. f_equal. unfold ts1. destruct b.
      * rewrite list_filter_filter. apply list_filter_iff. intros x. rewrite elem_of_cons.
        split; [intros [H1 H2] [[= ->] | H3]; done | intros H; split; [tauto|]].
        intros ->. apply H. by left.
      * apply list_filter_iff. intros x. rewrite elem_of_cons.
        split; [intros H1 [[=] | H3]; done | tauto].
    + intros o' Ho'. rewrite (Hother o' Ho'), Hobs. destruct b; [by rewrite decide_False | done].
    + intros m Hm. apply elem_of_cons in Hm as [[= -> <-] | Hm]; [ | by apply Hw].
      by apply Hk, Hn.
    + intros m Hm. rewrite elem_of_cons in Hm. rewrite Hf by tauto. apply Hfr.
      destruct b; [right | by left]. intros ->. apply Hm. by left.
    + intros m Hm. by apply Hk, Hkeep.
    + by rewrite Hu', Hu.
    + by rewrite Htm', Htm.
Qed.

(** X13: the callback of the reveal observer (line 290), run on any list
    of entries while the observer exists: it returns normally; the targets
    of the entries that intersect get opacity 1 and no offset and are
    dropped from the observer; no other element of the page changes; an
    element that was revealed already stays revealed; the observer of the
    lazy backgrounds and the timers are left alone. *)
Theorem observerCallback_reveals (entries : list entry) (ts : list node) (w : world) :
  observer w = Some ts ->
  let w' := exec (observerCallback entries) w in
  outcome_of (observerCallback entries) w = Ok tt /\
  observer w' = Some (filter (λ n, ¬ intersecting entries n) ts) /\
  (forall n, intersecting entries n -> revealed n w') /\
  (forall n, ¬ intersecting entries n -> getEl n w' = getEl n w) /\
  (forall n, revealed n w -> revealed n w') /\
  lazyBackgroundObserver w' = lazyBackgroundObserver w /\
  timers w' = timers w.
Proof.
  intros Hts. rewrite (callback_entry_step Reveal).
  destruct (entries_run Reveal entries w ts Hts) as (Hok & Ho & Hother & Hw & Hf & Hk & _ & Htm).
  cbv zeta in *. split; [exact Hok|]. split; [exact Ho|]. split; [exact Hw|].
  split; [exact Hf|]. split; [exact Hk|]. split; [ | exact Htm].
  by apply (Hother LazyBackground).
Qed.

Lemma observerCallback_reveals_witness :
  let w := exec (main full_runtime example_document) example_page in
  let w' := exec (observerCallback [(10%nat, true); (30%nat, false)]) w in
  observer w = Some [10%nat; 30%nat] /\
  observer w' = Some [30%nat] /\ revealed 10%nat w'.
Proof.
  cbv zeta.
  assert (H : observer (exec (main full_runtime example_document) example_page)
              = Some [10%nat; 30%nat]) by (vm_compute; reflexivity).
  split; [exact H|].
  destruct (observerCallback_reveals [(10%nat, true); (30%nat, false)] _ _ H)
    as (_ & Ho & Hr & _).
  split; [rewrite Ho; vm_compute; reflexivity | apply Hr; unfold intersecting; by left].
Defined.

(** X14: the callback of the lazy-background observer (line 340), run on
    any list of entries while the observer exists: it returns normally; the
    targets of the entries that intersect have the class [loaded] and are
    dropped from the observer; no other element of the page changes; an
    element that had the class keeps it; the reveal observer and the timers
    are left alone. *)
Theorem lazyBackgroundCallback_loads (entries : list entry) (ts : list node) (w : world) :
  lazyBackgroundObserver w = Some ts ->
  let w' := exec (lazyBackgroundCallback entries) w in
  outcome_of (lazyBackgroundCallback entries) w = Ok tt /\
  lazyBackgroundObserver w' = Some (filter (λ n, ¬ intersecting entries n) ts) /\
  (forall n, intersecting entries n -> loaded n w') /\
  (forall n, ¬ intersecting entries n -> getEl n w' = getEl n w) /\
  (forall n, loaded n w -> loaded n w') /\
  observer w' = observer w /\
  timers w' = timers w.
Proof.
  intros Hts. rewrite (callback_entry_step LazyBackground).
  destruct (entries_run LazyBackground entries w ts Hts)
    as (Hok & Ho & Hother & Hw & Hf & Hk & _ & Htm).
  cbv zeta in *. split; [exact Hok|]. split; [exact Ho|]. split; [exact Hw|].
  split; [exact Hf|]. split; [exact Hk|]. split; [ | exact Htm].
  by apply (Hother Reveal).
Qed.

Lemma lazyBackgroundCallback_loads_witness :
  let w := exec (main full_runtime example_document) example_page in
  let w' := exec (lazyBackgroundCallback [(31%nat, true)]) w in
  lazyBackgroundObserver w = Some [31%nat] /\
  lazyBackgroundObserver w' = Some [] /\ loaded 31%nat w'.
Proof.
  cbv zeta.
  assert (H : lazyBackgroundObserver (exec (main full_runtime example_document) example_page)
              = Some [31%nat]) by (vm_compute; reflexivity).
  split; [exact H|].
  destruct (lazyBackgroundCallback_loads [(31%nat, true)] _ _ H) as (_ & Ho & Hr & _).
  split; [rewrite Ho; vm_compute; reflexivity | apply Hr; unfold intersecting; by left].
Defined.

(** ** The script from its first line to its last *)

Section Returns.
Context {A B : Type}.

Lemma returns_bind (P : world -> Prop) (m : M A) (Q : A -> world -> Prop) (k : A -> M B)
    (R : B -> world -> Prop) :
  returns P m Q -> (forall a, returns (Q a) (k a) R) -> returns P (bind m k) R.
Proof.
  intros Hm Hk w Hw. destruct (Hm w Hw) as (a & w1 & E & Ha).
  destruct (Hk a w1 Ha) as (b & w2 & E' & Hb). exists b, w2. unfold bind. by rewrite E.
Qed.

Lemma returns_weaken (P P' : world -> Prop) (m : M A) (Q Q' : A -> world -> Prop) :
  returns P' m Q' -> (forall w, P w -> P' w) -> (forall a w, Q' a w -> Q a w) ->
  returns P m Q.
Proof.
  intros Hm HP HQ w Hw. destruct (Hm w (HP w Hw)) as (a & w1 & E & Ha).
  exists a, w1. split; [done | by apply HQ].
Qed.

Lemma returns_gets (P : world -> Prop) (f : world -> A) (Q : A -> world -> Prop) :
  (forall w, P w -> Q (f w) w) -> returns P (gets f) Q.
Proof. intros H w Hw. exists (f w), w. split; [done | by apply H]. Qed.
End Returns.

Lemma returns_ret (P : world -> Prop) : returns P (ret tt) (fun _ => P).
Proof. intros w Hw. by exists tt, w. Qed.

Lemma returns_modify (P : world -> Prop) (f : world -> world) (Q : world -> Prop) :
  (forall w, P w -> Q (f w)) -> returns P (modify f) (fun _ => Q).
Proof. intros H w Hw. exists tt, (f w). split; [done | by apply H]. Qed.

Lemma returns_forEach {A} (J : list A -> world -> Prop) (f : A -> M unit) (l : list A) :
  (forall done a, returns (J done) (f a) (fun _ => J (done ++ [a])%list)) ->
  returns (J []) (forEach l f) (fun _ => J l).
Proof.
  intros H.
  assert (G : forall pre, returns (J pre) (forEach l f) (fun _ => J (pre ++ l)%list)).
  { induction l as [|a l IH]; intros pre.
    - rewrite app_nil_r. apply returns_ret.
    - cbn [forEach]. eapply returns_bind; [apply H|]. intros ?; cbv beta.
      replace (pre ++ a :: l)%list with ((pre ++ [a]) ++ l)%list by by rewrite <- app_assoc.
      apply IH. }
  apply (G []).
Qed.

Lemma returns_keep {A} (P : world -> Prop) (f : A -> M unit) (l : list A) :
  (forall a, returns P (f a) (fun _ => P)) -> returns P (forEach l f) (fun _ => P).
Proof. intros H. apply (returns_forEach (fun _ => P)). intros ? a. apply H. Qed.

Lemma addEventListener_returns (P : world -> Prop) t type l :
  listener_blind P -> returns P (addEventListener t type l) (fun _ => P).
Proof. intros HP. apply returns_modify. intros w Hw. by apply HP. Qed.

Lemma setupNavigation_returns (P : world -> Prop) d :
  listener_blind P -> returns P (setupNavigation d) (fun _ => P).
Proof.
  intros HP. unfold setupNavigation.
  destruct (q_navToggle d) as [t|], (q_navMenu d) as [m|]; try apply returns_ret.
  eapply returns_bind; [by apply addEventListener_returns|]. intros ?; cbv beta.
  eapply returns_bind; [apply returns_keep; intros link; by apply addEventListener_returns|].
  intros ?; cbv beta. by apply addEventListener_returns.
Qed.

Lemma setupCard_returns (P : world -> Prop) c :
  listener_blind P -> is_Some (c_productName c) -> returns P (setupCard c) (fun _ => P).
Proof.
  intros HP [x Hx]. unfold setupCard. rewrite Hx.
  eapply returns_bind; [apply (returns_gets P _ (fun _ => P)); auto|]. intros nameEl.
  change (deref (Some x)) with (ret (A := node) x).
  eapply returns_bind; [apply (returns_gets P _ (fun _ => P)); auto|]. intros productName.
  eapply returns_bind.
  { destruct (c_addToCartBtn c); [by apply addEventListener_returns | apply returns_ret]. }
  intros ?; cbv beta. eapply returns_bind.
  { destruct (c_quickViewBtn c); [by apply addEventListener_returns | apply returns_ret]. }
  intros ?; cbv beta. by apply addEventListener_returns.
Qed.

Lemma observes_add o l ts n w :
  get_obs o w = Some ts -> NoDup ts -> (forall x, x ∈ ts <-> x ∈ l) ->
  exists ts', get_obs o (exec (observe o n) w) = Some ts' /\ NoDup ts' /\
              (forall x, x ∈ ts' <-> x ∈ (l ++ [n])%list) /\
              observe o n w = (Ok tt, exec (observe o n) w).
Proof.
  intros Hts Hnd Hl. unfold exec, observe. run_M. rewrite Hts.
  case_bool_decide as Hn; cbn [fst snd].
  - exists ts. split; [done|]. split; [done|]. split; [ | done].
    intros x. rewrite elem_of_app, list_elem_of_singleton, <- Hl.
    split; [tauto | intros [? | ->]; done].
  - exists (ts ++ [n])%list. split; [by rewrite get_obs_set_obs, decide_True|].
    split; [ | split; [ | done]].
    + apply NoDup_app. split; [done|]. split; [ | apply NoDup_singleton].
      intros x Hx Hx'. apply list_elem_of_singleton in Hx'. by subst.
    + intros x. rewrite !elem_of_app, Hl. tauto.
Qed.

Lemma setupAnimated_step w0 done el :
  returns (animated_set_up w0 done) (setupAnimated el)
    (fun _ => animated_set_up w0 (done ++ [el])%list).
Proof.
  intros w (Hk & Hy & Hc & (ts & Hts & Hnd & Hl) & Hh & Hf).
  unfold setupAnimated. run_M.
  set (w1 := updEl el _ (updEl el _ (updEl el _ w))).
  assert (Hel : hidden el w1).
  { unfold hidden, w1. rewrite !getEl_updEl_eq. cbn [style set_style].
    rewrite !style_assign_lookup by done. by repeat case_decide. }
  assert (Hne : forall n, n ≠ el -> getEl n w1 = getEl n w).
  { intros n Hn. unfold w1. by rewrite !getEl_updEl_ne. }
  destruct (observes_add Reveal done ts el w1 Hts Hnd Hl) as (ts' & Hts' & Hnd' & Hl' & E).
  rewrite E. exists tt, (exec (observe Reveal el) w1). split; [done|].
  assert (Hel' : forall n, getEl n (exec (observe Reveal el) w1) = getEl n w1).
  { intros n. apply getEl_elems. unfold exec, observe. run_M.
    change (get_obs Reveal w1) with (observer w). cbn in Hts. rewrite Hts.
    by case_bool_decide. }
  assert (Hrest : forall {X} (p : world -> X),
            (forall x v, p (set_observer x v) = p v) -> (forall v f, p (updEl el f v) = p v) ->
            p (exec (observe Reveal el) w1) = p w).
  { intros X p H1 H2. unfold exec, observe. run_M.
    change (get_obs Reveal w1) with (observer w). cbn in Hts. rewrite Hts.
    case_bool_decide; cbn [fst snd set_obs]; rewrite ?H1; unfold w1; by rewrite !H2. }
  split; [ | split; [ | split; [ | split; [ | split]]]].
  - unfold kept in *. rewrite !Hrest by done. exact Hk.
  - by rewrite Hrest.
  - by rewrite Hrest.
  - by exists ts'.
  - intros n Hn. unfold hidden. rewrite Hel'.
    destruct (decide (n = el)) as [-> | Hn']; [exact Hel|].
    rewrite (Hne n Hn'). apply Hh. apply elem_of_app in Hn as [Hn | Hn]; [done|].
    by apply list_elem_of_singleton in Hn.
  - intros n Hn. rewrite Hel'. rewrite elem_of_app, list_elem_of_singleton in Hn.
    rewrite Hne by tauto. apply Hf. tauto.
Qed.

Lemma observe_lazy_step w0 animated done el :
  returns (lazy_set_up w0 animated done) (observe LazyBackground el)
    (fun _ => lazy_set_up w0 animated (done ++ [el])%list).
Proof.
  intros w (Ha & (ts & Hts & Hnd & Hl)).
  destruct (observes_add LazyBackground done ts el w Hts Hnd Hl) as (ts' & Hts' & Hnd' & Hl' & E).
  rewrite E. exists tt, (exec (observe LazyBackground el) w). split; [done|].
  split; [ | by exists ts'].
  unfold exec, observe. run_M. rewrite Hts. by case_bool_decide.
Qed.

Lemma animated_set_up_blind w0 l : listener_blind (animated_set_up w0 l).
Proof. intros w x H. exact H. Qed.

Lemma lazy_set_up_blind w0 l l' : listener_blind (lazy_set_up w0 l l').
Proof. intros w x H. exact H. Qed.

Lemma kept_refl w : kept w w.
Proof. by repeat split. Qed.

(** The script on a page whose cards have names, where intersection
    observers exist: it returns, and all of the set-up is in place. *)
Lemma main_returns rt d w0 :
  has_IntersectionObserver rt = true -> cards_named d ->
  returns (fun w => w = w0) (main rt d)
    (fun _ => lazy_set_up w0 (q_animatedElements d) (q_lazyBackgrounds d)).
Proof.
  intros Hio Hcards.
  set (P0 := fun w => kept w0 w /\ elems w = elems w0).
  set (P1 := fun w => P0 w /\ lastScrollY w = pageYOffset w0).
  set (P2 := fun w => P1 w /\ cartCount w = Some 0%nat).
  assert (B0 : listener_blind P0) by (intros w x H; exact H).
  assert (B1 : listener_blind P1) by (intros w x H; exact H).
  assert (B2 : listener_blind P2) by (intros w x H; exact H).
  unfold main.
  apply (returns_bind _ _ (fun _ => P0)).
  { eapply returns_weaken; [apply (setupNavigation_returns P0 d B0) | | done].
    intros w ->. split; [apply kept_refl | done]. }
  intros ?; cbv beta. apply (returns_bind _ _ (fun _ => P0)).
  { apply returns_keep. intros anchor. by apply addEventListener_returns. }
  intros ?; cbv beta.
  apply (returns_bind _ _ (fun y w => P0 w /\ y = pageYOffset w0)).
  { apply returns_gets. intros w Hw. split; [done|]. apply Hw. }
  intros y. apply (returns_bind _ _ (fun _ => P1)).
  { apply returns_modify. intros w [Hw ->]. split; [exact Hw | done]. }
  intros ?; cbv beta. apply (returns_bind _ _ (fun _ => P1)).
  { by apply addEventListener_returns. }
  intros ?; cbv beta. apply (returns_bind _ _ (fun _ => P1)).
  { unfold cards_named in Hcards. induction Hcards as [|c cs Hc _ IH]; [apply returns_ret|].
    cbn [forEach]. eapply returns_bind; [by apply setupCard_returns|]. intros ?; exact IH. }
  intros ?; cbv beta. apply (returns_bind _ _ (fun _ => P2)).
  { apply returns_modify. intros w Hw. split; [exact Hw | done]. }
  intros ?; cbv beta. apply (returns_bind _ _ (fun _ => P2)).
  { destruct (q_newsletterForm d); [by apply addEventListener_returns | apply returns_ret]. }
  intros ?; cbv beta. apply (returns_bind _ _ (fun _ => animated_set_up w0 [])).
  { unfold new_IntersectionObserver. rewrite Hio. apply returns_modify.
    intros w (((Hk & He) & Hy) & Hc). split; [exact Hk|]. split; [exact Hy|].
    split; [exact Hc|]. split; [exists []; split; [done | split; [constructor | done]]|].
    split; [intros n Hn; by apply elem_of_nil in Hn|]. intros n _. by apply getEl_elems. }
  intros ?; cbv beta.
  apply (returns_bind _ _ (fun _ => animated_set_up w0 (q_animatedElements d))).
  { apply (returns_forEach (animated_set_up w0)). intros done el. apply setupAnimated_step. }
  intros ?; cbv beta.
  apply (returns_bind _ _
           (fun _ => lazy_set_up w0 (q_animatedElements d) (q_lazyBackgrounds d))).
  { unfold setupLazyBackgrounds, new_IntersectionObserver. rewrite Hio.
    apply (returns_bind _ _ (fun _ => lazy_set_up w0 (q_animatedElements d) [])).
    - apply returns_modify. intros w Hw. split; [exact Hw|].
      exists []. split; [done | split; [constructor | done]].
    - intros ?; cbv beta. apply (returns_forEach (lazy_set_up w0 (q_animatedElements d))).
      intros done el. apply observe_lazy_step. }
  intros ?; cbv beta. eapply returns_bind; [apply addEventListener_returns, lazy_set_up_blind|].
  intros ?; cbv beta. eapply returns_bind; [apply addEventListener_returns, lazy_set_up_blind|].
  intros ?; cbv beta. unfold setupFocusTrap.
  destruct (q_navMenu d); [apply addEventListener_returns, lazy_set_up_blind|].
  intros w Hw. by exists tt, w.
Qed.

(** X15: on a page whose product cards all have a name, in a runtime with
    intersection observers, the script runs to its end, and then: the cart
    counter is 0; the last scroll position is the offset of the page; every
    element to be revealed has opacity 0, the 20px offset and the
    transition, and the reveal observer observes exactly those elements;
    the observer of the lazy backgrounds observes exactly the lazy
    backgrounds; no other element of the page has changed; and the scroll
    position, the focus, the address, the timers, the animation frames and
    the uncaught exceptions are as they were. *)
Theorem main_sets_up (rt : env) (d : document) (w : world) :
  has_IntersectionObserver rt = true ->
  cards_named d ->
  let w' := exec (main rt d) w in
  outcome_of (main rt d) w = Ok tt /\
  cartCount w' = Some 0%nat /\
  lastScrollY w' = pageYOffset w /\
  observes Reveal (q_animatedElements d) w' /\
  (forall n, n ∈ q_animatedElements d -> hidden n w') /\
  (forall n, n ∉ q_animatedElements d -> getEl n w' = getEl n w) /\
  observes LazyBackground (q_lazyBackgrounds d) w' /\
  kept w w'.
Proof.
  intros Hio Hcards.
  destruct (main_returns rt d w Hio Hcards w eq_refl)
    as ([] & w1 & E & (Hk & Hy & Hc & Ho & Hh & Hf) & Hl).
  unfold outcome_of, exec. rewrite E. cbn [fst snd].
  repeat match goal with |- _ /\ _ => split end; done.
Qed.

Lemma main_sets_up_witness :
  let w' := exec (main full_runtime example_document) example_page in
  cartCount w' = Some 0%nat /\ hidden 10%nat w' /\ hidden 30%nat w'.
Proof.
  cbv zeta.
  destruct (main_sets_up full_runtime example_document example_page) as (_ & Hc & _ & _ & Hh & _).
  - reflexivity.
  - unfold cards_named. vm_compute q_productCards. repeat constructor; by eexists.
  - split; [exact Hc|]. split; apply Hh; vm_compute q_animatedElements; set_solver.
Defined.

(** X16: whether the script runs to its end depends on two things only.
    If some product card has no name, it throws a [TypeError] while it sets
    up the cards; otherwise, if the runtime has no intersection observers,
    it throws a [ReferenceError] where it creates the reveal observer;
    otherwise it returns. *)
Theorem main_outcome (rt : env) (d : document) (w : world) :
  outcome_of (main rt d) w =
    if bool_decide (cards_named d)
    then if has_IntersectionObserver rt then Ok tt else Throw ReferenceError
    else Throw TypeError.
Proof.
  case_bool_decide as Hcards.
  - destruct (has_IntersectionObserver rt) eqn:Hio.
    + destruct (main_returns rt d w Hio Hcards w eq_refl) as ([] & w1 & E & _).
      unfold outcome_of. by rewrite E.
    + by apply main_without_intersection_observer.
  - apply not_Forall_Exists in Hcards; [ | apply _].
    apply Exists_exists in Hcards as (c & Hin & Hc).
    apply (main_card_without_name rt d c); [done|].
    cbn in Hc. destruct (c_productName c); [ | done]. exfalso. apply Hc. by eexists.
Qed.

(** ** Opening the menu and closing it again *)

Lemma element_ext (e1 e2 : element) :
  attributes e1 = attributes e2 -> classList e1 = classList e2 -> style e1 = style e2 ->
  textContent e1 = textContent e2 -> value e1 = value e2 -> e1 = e2.
Proof. destruct e1, e2. cbn. by intros -> -> -> -> ->. Qed.

(** A click on the toggle, field by field. *)
Lemma toggleClick_fields t m w :
  let w1 := exec (toggleClick t m) w in
  let l := cl_toggle "active" (classList (getEl m w)) in
  outcome_of (toggleClick t m) w = Ok tt /\
  w1 = set_elems (elems w1) w /\
  forall n,
    attributes (getEl n w1) =
      (if decide (t = n)
       then <["aria-expanded" :=
               string_of_bool (negb (bool_decide (aria_expanded t w = Some "true")))]>
              (attributes (getEl t w))
       else attributes (getEl n w)) /\
    classList (getEl n w1) = (if decide (m = n) then l else classList (getEl n w)) /\
    style (getEl n w1) =
      (if decide (body = n)
       then style_assign "overflow" (if cl_contains "active" l then "hidden" else EmptyString)
              (style (getEl body w))
       else style (getEl n w)) /\
    textContent (getEl n w1) = textContent (getEl n w) /\
    value (getEl n w1) = value (getEl n w).
Proof.
  cbv zeta. unfold outcome_of, exec, toggleClick, aria_expanded. run_M.
  split; [done|]. split; [done|]. intros n. autorewrite with store.
  cbn [classList set_classList].
  split; [ | split; [ | split; [ | by autorewrite with store]]].
  - rewrite getEl_updEl. destruct (decide (t = n)); reflexivity.
  - rewrite getEl_updEl. destruct (decide (m = n)); cbn; by autorewrite with store.
  - rewrite getEl_updEl. destruct (decide (body = n)); cbn; by autorewrite with store.
Qed.

(** X17: the toggle opens a closed menu and closes it again.  From a
    closed menu (no [active] class, [aria-expanded] ["false"], no overflow
    set on the body) one click gives the open state: [aria-expanded]
    ["true"], the class [active], the scroll lock.  A second click gives
    back the page as it was: the menu is closed, every element is what it
    was before the first click, and nothing but the elements has
    changed. *)
Theorem toggle_round_trip (t m : node) (w : world) :
  menu_closed t m w ->
  let w1 := exec (toggleClick t m) w in
  let w2 := exec (toggleClick t m) w1 in
  (aria_expanded t w1 = Some "true" /\ "active" ∈ classList (getEl m w1) /\ scroll_locked w1) /\
  menu_closed t m w2 /\
  (forall n, getEl n w2 = getEl n w) /\
  w2 = set_elems (elems w2) w.
Proof.
  intros (Hc & Ha & Ho) w1 w2.
  destruct (toggleClick_fields t m w) as (_ & Hw1 & H1).
  destruct (toggleClick_fields t m w1) as (_ & Hw2 & H2).
  fold w1 in Hw1, H1. fold w2 in Hw2, H2.
  assert (Hb : bool_decide (aria_expanded t w = Some "true") = false).
  { apply bool_decide_eq_false_2. by rewrite Ha. }
  assert (Hl : cl_toggle "active" (classList (getEl m w)) =
               (classList (getEl m w) ++ ["active"])%list).
  { unfold cl_toggle, cl_add.
    destruct (cl_contains "active" (classList (getEl m w))) eqn:E; [ | reflexivity].
    apply cl_contains_spec in E. by destruct Hc. }
  assert (Hl' : cl_contains "active" (classList (getEl m w) ++ ["active"])%list = true).
  { apply cl_contains_spec, elem_of_app. right. by left. }
  assert (A1 : aria_expanded t w1 = Some "true").
  { unfold aria_expanded. destruct (H1 t) as (-> & _). rewrite decide_True by done.
    rewrite Hb. apply lookup_insert_eq. }
  assert (C1 : classList (getEl m w1) = (classList (getEl m w) ++ ["active"])%list).
  { destruct (H1 m) as (_ & -> & _). by rewrite decide_True, Hl. }
  assert (S1 : style (getEl body w1) = <["overflow" := "hidden"]> (style (getEl body w))).
  { destruct (H1 body) as (_ & _ & -> & _). by rewrite decide_True, Hl, Hl'. }
  assert (Hl2 : cl_toggle "active" (classList (getEl m w1)) = classList (getEl m w)).
  { rewrite C1. unfold cl_toggle. rewrite Hl'. unfold cl_remove.
    rewrite filter_app, filter_cons_False, filter_nil, app_nil_r by (intros H; by apply H).
    apply filter_all_in. intros x Hx ->. by apply Hc. }
  assert (Hl2' : cl_contains "active" (classList (getEl m w)) = false).
  { destruct (cl_contains "active" (classList (getEl m w))) eqn:E; [ | reflexivity].
    apply cl_contains_spec in E. by destruct Hc. }
  assert (G : forall n, getEl n w2 = getEl n w).
  { intros n. destruct (H2 n) as (E1 & E2 & E3 & E4 & E5).
    destruct (H1 n) as (F1 & F2 & F3 & F4 & F5).
    apply element_ext.
    - rewrite E1. destruct (decide (t = n)) as [<- | Hn]; [ | by rewrite F1].
      rewrite A1, bool_decide_eq_true_2 by done. destruct (H1 t) as (-> & _).
      rewrite decide_True, Hb by done. cbn. rewrite insert_insert_eq. by apply insert_id.
    - rewrite E2. destruct (decide (m = n)) as [<- | Hn]; [exact Hl2 | by rewrite F2].
    - rewrite E3. destruct (decide (body = n)) as [<- | Hn]; [ | by rewrite F3].
      rewrite Hl2, Hl2', S1. unfold style_assign. cbn. by apply delete_insert_id.
    - by rewrite E4, F4.
    - by rewrite E5, F5. }
  split; [split; [exact A1 | split]|].
  - rewrite C1. apply elem_of_app. right. by left.
  - unfold scroll_locked. rewrite S1. apply lookup_insert_eq.
  - split; [ | split; [exact G|]].
    + unfold menu_closed, aria_expanded. by rewrite !G.
    + rewrite Hw2. rewrite Hw1 at 2. reflexivity.
Qed.

Lemma toggle_round_trip_witness :
  let w := exec (navLinkClick 1%nat 2%nat) example_page in
  let w2 := exec (toggleClick 1%nat 2%nat) (exec (toggleClick 1%nat 2%nat) w) in
  menu_closed 1%nat 2%nat w /\ forall n, getEl n w2 = getEl n w.
Proof.
  cbv zeta.
  assert (H : menu_closed 1%nat 2%nat (exec (navLinkClick 1%nat 2%nat) example_page)).
  { unfold exec, navLinkClick. run_M. apply closed_menu_closed. }
  split; [exact H|].
  destruct (toggle_round_trip 1%nat 2%nat _ H) as (_ & _ & G & _). exact G.
Defined.

(** ** The animation that ends on time *)


(** ** The success label of the newsletter form *)

(** X20: the success label lasts 3000 ms for every address that the
    pattern accepts.  With no other timer pending at the submission, the
    button shows ["Subscribed!"] on a green background for less than
    3000 ms; from 3000 ms on it shows the text it had before, and its
    inline background colour is cleared (whatever it was before the
    submission, it is not restored). *)
Theorem newsletter_success_reverts (d : document) (i b : node) (dt : nat) (w : world) :
  q_emailInput d = Some i ->
  q_submitBtn d = Some b ->
  isValidEmail (value (getEl i w)) = true ->
  timers w = [] ->
  let w' := exec (advance dt) (exec (newsletterSubmit d) w) in
  ((dt < 3000)%nat ->
   textContent (getEl b w') = "Subscribed!" /\
   style (getEl b w') !! "backgroundColor" = Some "#4CAF50") /\
  ((3000 <= dt)%nat ->
   textContent (getEl b w') = textContent (getEl b w) /\
   style (getEl b w') !! "backgroundColor" = None).
Proof.
  intros Hi Hb Hv Htm.
  pose proof (newsletterSubmit_valid d i b w Hi Hb (isValidEmail_truthy _ Hv) Hv) as Hrun.
  cbv zeta in Hrun. unfold exec at 2. rewrite Hrun. cbn [snd]. clear Hrun.
  set (w1 := updEl i _ _).
  match goal with |- context [exec (advance dt) ?W] => set (w2 := W) end.
  assert (Htimers : timers w2 =
            [mkTimer (next_timer w) (now w2 + 1000) (CbRemoveAnnouncement (next_child w));
             mkTimer (S (next_timer w)) (now w2 + 3000)
               (CbResetButton b (textContent (getEl b w)))]).
  { unfold w2. cbn. by rewrite Htm. }
  destruct (transient_label _ _ _ _ _ 3000 dt w2 Htimers) as (_ & Hbefore & Hafter); [lia.. | ].
  cbv zeta. split.
  - intros Hlt. rewrite (getEl_elems b _ w1) by (rewrite (Hbefore Hlt); reflexivity).
    unfold w1. split; [by autorewrite with store|].
    rewrite style_value, getEl_updEl_eq. cbn [style set_style]. apply lookup_insert_eq.
  - intros Hge. exact (Hafter Hge).
Qed.

Lemma newsletter_success_reverts_witness :
  let w' := exec (advance 3000) (exec (newsletterSubmit example_document) example_page) in
  textContent (getEl 22%nat w') = "Subscribe" /\
  style (getEl 22%nat w') !! "backgroundColor" = None.
Proof.
  cbv zeta.
  destruct (newsletter_success_reverts example_document 21%nat 22%nat 3000 example_page)
    as [_ H]; [reflexivity | reflexivity | vm_compute; reflexivity | reflexivity | ].
  destruct (H (le_n _)) as [H1 H2]. split; [rewrite H1; reflexivity | exact H2].
Defined.
